(** * Perlin and fractal noise (perlin2d.py, perlin3d.py)

    A shallow embedding of the two noise modules and the properties of
    their specification.

    Conventions of the embedding.
    - A Python [int] is a [Z]; a Python tuple is a [list], and indexing
      one past its end raises [IndexError].
    - A float is a real number [R]: [np.pi] is [PI], [np.cos] is [cos],
      [x % 1] is [frac_part x], [math.ceil] is [Rceil].  Rounding is not
      part of the model.
    - A numpy array is its shape together with its element at every
      index ([ndarray]); the operations of numpy the code uses are in
      module [Np], each with the exception it raises.
    - [np.random.rand] reads the global generator: the generator is an
      explicit state [rng], the sequence of uniform draws that the seed
      determines and the number of draws already consumed. *)

From Stdlib Require Import Reals ZArith List Bool Lia Lra.
From Stdlib Require Import FunctionalExtensionality.
Import ListNotations.

Set Implicit Arguments.

(** ** Exceptions and the generator state *)

Inductive exn : Type := ValueError | ZeroDivisionError | IndexError.

Inductive result (A : Type) : Type :=
| Ok (a : A)
| Raise (e : exn).
Arguments Ok {A} a.
Arguments Raise {A} e.

Definition rbind {A B} (c : result A) (k : A -> result B) : result B :=
  match c with
  | Ok a => k a
  | Raise e => Raise e
  end.

Declare Scope res_scope.
Delimit Scope res_scope with res.
Notation "x <- c ;; k" := (rbind c (fun x => k))
  (at level 61, c at next level, right associativity) : res_scope.

Record rng : Type := mk_rng { draws : nat -> R; pos : nat }.

(** A computation that may draw from the generator and may raise.  The
    generator state survives an exception, as the global state of
    [np.random] does. *)
Definition M (A : Type) : Type := rng -> result A * rng.

Definition ret {A} (a : A) : M A := fun st => (Ok a, st).

Definition bind {A B} (c : M A) (k : A -> M B) : M B :=
  fun st =>
    match c st with
    | (Ok a, st') => k a st'
    | (Raise e, st') => (Raise e, st')
    end.

Definition lift {A} (c : result A) : M A := fun st => (c, st).

Declare Scope m_scope.
Delimit Scope m_scope with m.
Notation "x <- c ;; k" := (bind c (fun x => k))
  (at level 61, c at next level, right associativity) : m_scope.

(** ** Python integers and tuples *)

Definition tuple_get {A} (t : list A) (k : nat) : result A :=
  match nth_error t k with
  | Some x => Ok x
  | None => Raise IndexError
  end.

(** [a / b] on ints: true division. *)
Definition truediv (a b : Z) : result R :=
  if (b =? 0)%Z then Raise ZeroDivisionError else Ok (IZR a / IZR b)%R.

(** [a // b] on ints: floor division, which is [Z.div]. *)
Definition floordiv (a b : Z) : result Z :=
  if (b =? 0)%Z then Raise ZeroDivisionError else Ok (a / b)%Z.

(** [math.ceil]. *)
Definition Rceil (x : R) : Z := (- Int_part (- x))%Z.

(** ** Index lists *)

Fixpoint set_nth (k : nat) (v : nat) (l : list nat) : list nat :=
  match l, k with
  | [], _ => []
  | _ :: l', O => v :: l'
  | x :: l', S k' => x :: set_nth k' v l'
  end.

Fixpoint remove_nth (k : nat) (l : list nat) : list nat :=
  match l, k with
  | [], _ => []
  | _ :: l', O => l'
  | x :: l', S k' => x :: remove_nth k' l'
  end.

Fixpoint insert_nth (k : nat) (v : nat) (l : list nat) : list nat :=
  match k, l with
  | O, _ => v :: l
  | S k', x :: l' => x :: insert_nth k' v l'
  | S _, [] => [v]
  end.

Fixpoint index_of (x : nat) (l : list nat) : nat :=
  match l with
  | [] => 0
  | y :: l' => if Nat.eqb x y then 0 else S (index_of x l')
  end.

Fixpoint list_eqb (l1 l2 : list nat) : bool :=
  match l1, l2 with
  | [], [] => true
  | x :: l1', y :: l2' => Nat.eqb x y && list_eqb l1' l2'
  | _, _ => false
  end.

Definition prod_list (l : list nat) : nat := fold_right Nat.mul 1 l.

(** Row-major position of an index in an array of shape [s]. *)
Definition ravel (s idx : list nat) : nat :=
  fold_left (fun acc p => acc * fst p + snd p) (combine s idx) 0.

Definition in_bounds (idx s : list nat) : Prop := Forall2 lt idx s.

Definition nonneg (l : list Z) : bool := forallb (fun z => (0 <=? z)%Z) l.

(** ** numpy arrays *)

Record ndarray : Type := mk_nd { shape : list nat; get : list nat -> R }.

Definition rank (a : ndarray) : nat := length (shape a).

(** Broadcasting of two shapes, aligned on their last axes; the lists
    are given last axis first. *)
Fixpoint bshape_rev (s1 s2 : list nat) : option (list nat) :=
  match s1, s2 with
  | [], _ => Some s2
  | _, [] => Some s1
  | a :: s1', b :: s2' =>
      match bshape_rev s1' s2' with
      | None => None
      | Some s =>
          if Nat.eqb a b then Some (a :: s)
          else if Nat.eqb a 1 then Some (b :: s)
          else if Nat.eqb b 1 then Some (a :: s)
          else None
      end
  end.

Definition broadcast_shapes (s1 s2 : list nat) : option (list nat) :=
  option_map (@rev nat) (bshape_rev (rev s1) (rev s2)).

Fixpoint bidx_aux (s idx : list nat) : list nat :=
  match s, idx with
  | n :: s', i :: idx' => (if Nat.eqb n 1 then 0 else i) :: bidx_aux s' idx'
  | _, _ => []
  end.

(** The index an operand of shape [s] is read at, for the index [idx]
    of the broadcast result: the trailing axes, and 0 on an axis of
    length 1. *)
Definition bidx (s idx : list nat) : list nat :=
  bidx_aux s (skipn (length idx - length s) idx).

Module Np.

Definition map (f : R -> R) (a : ndarray) : ndarray :=
  mk_nd (shape a) (fun idx => f (get a idx)).

(** [np.zeros(shape)]. *)
Definition zeros (sh : list Z) : result ndarray :=
  if nonneg sh then Ok (mk_nd (List.map Z.to_nat sh) (fun _ => 0%R))
  else Raise ValueError.

(** [np.random.rand(d0, d1, ..)]: as many draws as the array has elements,
    in row-major order. *)
Definition rand (dims : list Z) : M ndarray :=
  fun st =>
    if nonneg dims then
      let s := List.map Z.to_nat dims in
      (Ok (mk_nd s (fun idx => draws st (pos st + ravel s idx))),
       mk_rng (draws st) (pos st + prod_list s))
    else (Raise ValueError, st).

(** A binary ufunc with broadcasting ([*], [+], [-]). *)
Definition binop (f : R -> R -> R) (a b : ndarray) : result ndarray :=
  match broadcast_shapes (shape a) (shape b) with
  | Some s =>
      Ok (mk_nd s (fun idx =>
                     f (get a (bidx (shape a) idx))
                       (get b (bidx (shape b) idx))))
  | None => Raise ValueError
  end.

Definition mul := binop Rmult.
Definition add := binop Rplus.
Definition sub := binop Rminus.

(** [c * a], [c - a] and [a - c] for a Python scalar [c]. *)
Definition smul (c : R) (a : ndarray) : ndarray := map (Rmult c) a.
Definition rsub (c : R) (a : ndarray) : ndarray := map (Rminus c) a.
Definition subs (a : ndarray) (c : R) : ndarray :=
  map (fun x => (x - c)%R) a.

(** [a += b]: the broadcast shape has to be the shape of [a]. *)
Definition iadd (a b : ndarray) : result ndarray :=
  match broadcast_shapes (shape a) (shape b) with
  | Some s =>
      if list_eqb s (shape a) then
        Ok (mk_nd (shape a)
              (fun idx => (get a idx + get b (bidx (shape b) idx))%R))
      else Raise ValueError
  | None => Raise ValueError
  end.

(** An integer index on one axis, negative from the end. *)
Definition norm_index (n : nat) (k : Z) : result nat :=
  let k' := if (k <? 0)%Z then (k + Z.of_nat n)%Z else k in
  if ((0 <=? k') && (k' <? Z.of_nat n))%Z then Ok (Z.to_nat k')
  else Raise IndexError.

(** [a[:, .., k, .., :]] with the integer [k] on axis [ax]. *)
Definition getitem_int (ax : nat) (k : Z) (a : ndarray) : result ndarray :=
  if Nat.ltb ax (rank a) then
    (k' <- norm_index (nth ax (shape a) 0) k ;;
     Ok (mk_nd (remove_nth ax (shape a))
           (fun idx => get a (insert_nth ax k' idx))))%res
  else Raise IndexError.

(** [a[:, .., k, .., :] = v]. *)
Definition setitem_int (ax : nat) (k : Z) (a v : ndarray)
  : result ndarray :=
  if Nat.ltb ax (rank a) then
    (k' <- norm_index (nth ax (shape a) 0) k ;;
     match broadcast_shapes (remove_nth ax (shape a)) (shape v) with
     | Some s =>
         if list_eqb s (remove_nth ax (shape a)) then
           Ok (mk_nd (shape a)
                 (fun idx =>
                    if Nat.eqb (nth ax idx 0) k'
                    then get v (bidx (shape v) (remove_nth ax idx))
                    else get a idx))
         else Raise ValueError
     | None => Raise ValueError
     end)%res
  else Raise IndexError.

(** [a.repeat(d, ax)]. *)
Definition repeat (d : Z) (ax : nat) (a : ndarray) : result ndarray :=
  if negb (Nat.ltb ax (rank a)) then Raise ValueError
  else if (d <? 0)%Z then Raise ValueError
  else
    let d' := Z.to_nat d in
    Ok (mk_nd (set_nth ax (nth ax (shape a) 0 * d') (shape a))
          (fun idx => get a (set_nth ax (nth ax idx 0 / d') idx))).

(** The bounds [lo:hi] of a slice on an axis of length [n], as the
    first index kept and the number of indices kept. *)
Definition slice_bounds (n : nat) (sl : option Z * option Z) : nat * nat :=
  let norm k :=
    if (k <? 0)%Z then Z.max (k + Z.of_nat n) 0 else Z.min k (Z.of_nat n) in
  let lo := match fst sl with None => 0%Z | Some k => norm k end in
  let hi := match snd sl with None => Z.of_nat n | Some k => norm k end in
  (Z.to_nat lo, Z.to_nat (hi - lo)).

Fixpoint slice_shape (sls : list (option Z * option Z)) (s : list nat)
  : list nat :=
  match sls, s with
  | sl :: sls', n :: s' => snd (slice_bounds n sl) :: slice_shape sls' s'
  | _, _ => s
  end.

Fixpoint slice_index (sls : list (option Z * option Z)) (s idx : list nat)
  : list nat :=
  match sls, s, idx with
  | sl :: sls', n :: s', i :: idx' =>
      (fst (slice_bounds n sl) + i) :: slice_index sls' s' idx'
  | _, _, _ => idx
  end.

(** [a[lo0:hi0, lo1:hi1, ..]]: one slice for each leading axis. *)
Definition slice (sls : list (option Z * option Z)) (a : ndarray)
  : result ndarray :=
  if Nat.leb (length sls) (rank a) then
    Ok (mk_nd (slice_shape sls (shape a))
          (fun idx => get a (slice_index sls (shape a) idx)))
  else Raise IndexError.

(** [np.sum(a, ax)]. *)
Definition sum (ax : nat) (a : ndarray) : result ndarray :=
  if Nat.ltb ax (rank a) then
    Ok (mk_nd (remove_nth ax (shape a))
          (fun idx =>
             fold_left Rplus
               (List.map (fun k => get a (insert_nth ax k idx))
                  (seq 0 (nth ax (shape a) 0)))
               0%R))
  else Raise ValueError.

(** [np.stack(arrs, axis=ax)]: the arrays have one shape, and the new
    axis [ax] selects among them. *)
Definition stack (ax : nat) (arrs : list ndarray) : result ndarray :=
  match arrs with
  | [] => Raise ValueError
  | a0 :: _ =>
      if forallb (fun a => list_eqb (shape a) (shape a0)) arrs
         && Nat.leb ax (rank a0)
      then
        Ok (mk_nd (insert_nth ax (length arrs) (shape a0))
              (fun idx =>
                 get (nth (nth ax idx 0) arrs a0) (remove_nth ax idx)))
      else Raise ValueError
  end.

(** [np.dstack((a, b))] on arrays of rank 2, the only use the code
    makes of it, stacks on a new third axis. *)
Definition dstack (arrs : list ndarray) : result ndarray := stack 2 arrs.

(** [a.transpose(p0, p1, ..)]. *)
Definition transpose (perm : list nat) (a : ndarray) : result ndarray :=
  if Nat.eqb (length perm) (rank a)
     && forallb (fun k => existsb (Nat.eqb k) perm) (seq 0 (rank a))
  then
    Ok (mk_nd (List.map (fun ax => nth ax (shape a) 0) perm)
          (fun idx =>
             get a (List.map (fun ax => nth (index_of ax perm) idx 0)
                      (seq 0 (rank a)))))
  else Raise ValueError.

(** [np.mgrid[start0:stop0:step0, start1:stop1:step1, ..]] with float
    steps: axis 0 selects the coordinate, and the length of each
    further axis is [ceil((stop - start) / (step * 1.0))]. *)
Definition mgrid_len (sl : Z * Z * R) : Z :=
  let '(start, stop, step) := sl in
  Rceil (IZR (stop - start) / (step * 1))%R.

Definition mgrid (sls : list (Z * Z * R)) : result ndarray :=
  if existsb (fun sl => if Req_dec_T (snd sl) 0%R then true else false) sls
  then Raise ZeroDivisionError
  else
    let lens := List.map mgrid_len sls in
    if nonneg lens then
      Ok (mk_nd (length sls :: List.map Z.to_nat lens)
            (fun idx =>
               match idx with
               | k :: rest =>
                   let '(start, _, step) := nth k sls (0%Z, 0%Z, 0%R) in
                   (INR (nth k rest 0%nat) * step + IZR start)%R
               | [] => 0%R
               end))
    else Raise ValueError.

(** [a.ravel()]: the elements in row-major order.  [unravel] is the
    index of the element at position [k]. *)
Fixpoint unravel (s : list nat) (k : nat) : list nat :=
  match s with
  | [] => []
  | _ :: s' => (k / prod_list s') :: unravel s' (k mod prod_list s')
  end.

Definition ravel (a : ndarray) : ndarray :=
  mk_nd [prod_list (shape a)]
    (fun idx => get a (unravel (shape a) (nth 0 idx 0))).

(** [np.linspace(start, stop, num)] with the default [endpoint=True]:
    [num] samples [k * step + start] with [step = (stop - start) / (num - 1)],
    the last one set to [stop]; with one sample the step is undefined
    and the sample is [0 * (stop - start) + start]. *)
Definition linspace (start stop : R) (num : Z) : result ndarray :=
  if (num <? 0)%Z then Raise ValueError
  else
    let n := Z.to_nat num in
    let delta := (stop - start)%R in
    let div := INR (n - 1) in
    let y (k : nat) : R :=
      if Nat.ltb 0 (n - 1) then
        let step := (delta / div)%R in
        if Req_dec_T step 0%R then (INR k / div * delta)%R
        else (INR k * step)%R
      else (INR k * delta)%R in
    Ok (mk_nd [n]
          (fun idx =>
             let k := nth 0 idx 0 in
             if Nat.ltb 1 n && Nat.eqb k (n - 1) then stop
             else (y k + start)%R)).

(** [np.meshgrid(x, y)] on two arrays of rank 1, with the default
    [indexing='xy']: both results have [len(y)] rows and [len(x)]
    columns. *)
Definition meshgrid (x y : ndarray) : ndarray * ndarray :=
  let s := [nth 0 (shape y) 0; nth 0 (shape x) 0] in
  (mk_nd s (fun idx => get x [nth 1 idx 0]),
   mk_nd s (fun idx => get y [nth 0 idx 0])).

(** [np.column_stack(arrs)] on arrays of rank 1: they become the
    columns of an array of rank 2. *)
Definition column_stack (arrs : list ndarray) : result ndarray :=
  stack 1 arrs.

End Np.

(** ** Python's [for _ in range(n)] over a loop state *)

Fixpoint for_range {S : Type} (n : nat) (body : S -> M S) (s : S) : M S :=
  match n with
  | O => ret s
  | S n' => (s' <- body s ;; for_range n' body s')%m
  end.

(** ** perlin2d.py *)

(** [grid_to_xyz], lines 27-59.  Unpacking [z_grid.shape] into two
    names raises [ValueError] unless the grid has rank 2. *)
Definition grid_to_xyz (z_grid : ndarray) (start_coordinate end_coordinate : R)
  : result ndarray :=
  match shape z_grid with
  | [nrows; ncols] =>
      (x <- Np.linspace start_coordinate end_coordinate (Z.of_nat ncols) ;;
       y <- Np.linspace start_coordinate end_coordinate (Z.of_nat nrows) ;;
       let (xx, yy) := Np.meshgrid x y in
       Np.column_stack
         [Np.ravel xx; Np.ravel yy; Np.ravel z_grid])%res
  | _ => Raise ValueError
  end.

(** [interpolant], lines 62-63. *)
Definition interpolant (t : R) : R := (t * t * t * (t * (t * 6 - 15) + 10))%R.

(** Lines 88-91 of [generate_perlin_noise_2d]: [delta], [d] and the
    sample grid of local coordinates.  Returns [d] and [grid]. *)
Definition sample_grid_2d (shape res : list Z) : result (Z * Z * ndarray) :=
  (r0 <- tuple_get res 0 ;;
   s0 <- tuple_get shape 0 ;;
   delta0 <- truediv r0 s0 ;;
   r1 <- tuple_get res 1 ;;
   s1 <- tuple_get shape 1 ;;
   delta1 <- truediv r1 s1 ;;
   d0 <- floordiv s0 r0 ;;
   d1 <- floordiv s1 r1 ;;
   g <- Np.mgrid [(0%Z, r0, delta0); (0%Z, r1, delta1)] ;;
   g <- Np.transpose [1; 2; 0] g ;;
   Ok (d0, d1, Np.map frac_part g))%res.

(** [if tileable[ax]: gradients[.., -1, ..] = gradients[.., 0, ..]], the
    integer indices on axis [ax] (lines 95-98, and 64-69 of perlin3d.py). *)
Definition tile_axis (ax : nat) (t : bool) (gradients : ndarray)
  : result ndarray :=
  if t then
    (v <- Np.getitem_int ax 0 gradients ;;
     Np.setitem_int ax (-1) gradients v)%res
  else Ok gradients.

(** Lines 93-98: the lattice of corner gradients, with the seam of each
    tileable axis overwritten. *)
Definition gradient_lattice_2d (res : list Z) (tileable : list bool)
  : M ndarray :=
  (r0 <- lift (tuple_get res 0) ;;
   r1 <- lift (tuple_get res 1) ;;
   u <- Np.rand [(r0 + 1)%Z; (r1 + 1)%Z] ;;
   let angles := Np.smul (2 * PI) u in
   gradients <- lift (Np.dstack [Np.map cos angles; Np.map sin angles]) ;;
   t0 <- lift (tuple_get tileable 0) ;;
   gradients <- lift (tile_axis 0 t0 gradients) ;;
   t1 <- lift (tuple_get tileable 1) ;;
   gradients <- lift (tile_axis 1 t1 gradients) ;;
   ret gradients)%m.

(** One ramp of lines 105-108: [np.sum(np.dstack((x, y)) * g, 2)]. *)
Definition ramp_2d (x y g : ndarray) : result ndarray :=
  (v <- Np.dstack [x; y] ;;
   p <- Np.mul v g ;;
   Np.sum 2 p)%res.

(** The two forms of a linear blend: [a*(1-t) + t*b] (lines 111-112)
    and [(1-t)*a + t*b] (line 113). *)
Definition mix_r (a t b : ndarray) : result ndarray :=
  (l <- Np.mul a (Np.rsub 1 t) ;;
   r <- Np.mul t b ;;
   Np.add l r)%res.

Definition mix_l (t a b : ndarray) : result ndarray :=
  (l <- Np.mul (Np.rsub 1 t) a ;;
   r <- Np.mul t b ;;
   Np.add l r)%res.

(** Lines 99-113: the gradients repeated over the samples, the four
    corner ramps and their interpolation.  The interpolant is applied
    to every element of the grid. *)
Definition blend_2d (d0 d1 : Z) (grid gradients : ndarray)
    (interp : R -> R) : result ndarray :=
  let lo (d : Z) : option Z * option Z := (None, Some (- d)%Z) in
  let hi (d : Z) : option Z * option Z := (Some d, None) in
  (gradients <- Np.repeat d0 0 gradients ;;
   gradients <- Np.repeat d1 1 gradients ;;
   g00 <- Np.slice [lo d0; lo d1] gradients ;;
   g10 <- Np.slice [hi d0; lo d1] gradients ;;
   g01 <- Np.slice [lo d0; hi d1] gradients ;;
   g11 <- Np.slice [hi d0; hi d1] gradients ;;
   x <- Np.getitem_int 2 0 grid ;;
   y <- Np.getitem_int 2 1 grid ;;
   n00 <- ramp_2d x y g00 ;;
   n10 <- ramp_2d (Np.subs x 1) y g10 ;;
   n01 <- ramp_2d x (Np.subs y 1) g01 ;;
   n11 <- ramp_2d (Np.subs x 1) (Np.subs y 1) g11 ;;
   let t := Np.map interp grid in
   t0 <- Np.getitem_int 2 0 t ;;
   t1 <- Np.getitem_int 2 1 t ;;
   n0 <- mix_r n00 t0 n10 ;;
   n1 <- mix_r n01 t0 n11 ;;
   s <- mix_l t1 n0 n1 ;;
   Ok (Np.smul (sqrt 2) s))%res.

Definition generate_perlin_noise_2d (shape res : list Z)
    (tileable : list bool) (interp : R -> R) : M ndarray :=
  (dg <- lift (sample_grid_2d shape res) ;;
   let '(d0, d1, grid) := dg in
   gradients <- gradient_lattice_2d res tileable ;;
   lift (blend_2d d0 d1 grid gradients interp))%m.

(** The state of the octave loop: [noise], [frequency], [amplitude]. *)
Definition octave_state : Type := ndarray * Z * R.

(** Lines 149-153 of [generate_fractal_noise_2d], the loop body. *)
Definition octave_2d (shape res : list Z) (persistence : R) (lacunarity : Z)
    (tileable : list bool) (interp : R -> R) (s : octave_state)
  : M octave_state :=
  let '(noise, frequency, amplitude) := s in
  (r0 <- lift (tuple_get res 0) ;;
   r1 <- lift (tuple_get res 1) ;;
   f <- generate_perlin_noise_2d shape
          [(frequency * r0)%Z; (frequency * r1)%Z] tileable interp ;;
   noise <- lift (Np.iadd noise (Np.smul amplitude f)) ;;
   ret (noise, (frequency * lacunarity)%Z, (amplitude * persistence)%R))%m.

(** [generate_fractal_noise_2d], lines 145-154.  [lacunarity] is an
    int, as its default 2 is. *)
Definition generate_fractal_noise_2d (shape res : list Z) (octaves : Z)
    (persistence : R) (lacunarity : Z) (tileable : list bool)
    (interp : R -> R) : M ndarray :=
  (noise <- lift (Np.zeros shape) ;;
   s <- for_range (Z.to_nat octaves)
          (octave_2d shape res persistence lacunarity tileable interp)
          (noise, 1%Z, 1%R) ;;
   ret (fst (fst s)))%m.

(** ** perlin3d.py *)

(** Lines 52-56 of [generate_perlin_noise_3d]; the source builds the
    grid twice. *)
Definition sample_grid_3d (shape res : list Z)
  : result (Z * Z * Z * ndarray) :=
  (r0 <- tuple_get res 0 ;;
   s0 <- tuple_get shape 0 ;;
   delta0 <- truediv r0 s0 ;;
   r1 <- tuple_get res 1 ;;
   s1 <- tuple_get shape 1 ;;
   delta1 <- truediv r1 s1 ;;
   r2 <- tuple_get res 2 ;;
   s2 <- tuple_get shape 2 ;;
   delta2 <- truediv r2 s2 ;;
   d0 <- floordiv s0 r0 ;;
   d1 <- floordiv s1 r1 ;;
   d2 <- floordiv s2 r2 ;;
   g <- Np.mgrid [(0%Z, r0, delta0); (0%Z, r1, delta1); (0%Z, r2, delta2)] ;;
   g <- Np.mgrid [(0%Z, r0, delta0); (0%Z, r1, delta1); (0%Z, r2, delta2)] ;;
   g <- Np.transpose [1; 2; 3; 0] g ;;
   Ok (d0, d1, d2, Np.map frac_part g))%res.

(** Lines 58-69: the lattice of corner gradients. *)
Definition gradient_lattice_3d (res : list Z) (tileable : list bool)
  : M ndarray :=
  (r0 <- lift (tuple_get res 0) ;;
   r1 <- lift (tuple_get res 1) ;;
   r2 <- lift (tuple_get res 2) ;;
   u <- Np.rand [(r0 + 1)%Z; (r1 + 1)%Z; (r2 + 1)%Z] ;;
   let theta := Np.smul (2 * PI) u in
   u <- Np.rand [(r0 + 1)%Z; (r1 + 1)%Z; (r2 + 1)%Z] ;;
   let phi := Np.smul (2 * PI) u in
   gx <- lift (Np.mul (Np.map sin phi) (Np.map cos theta)) ;;
   gy <- lift (Np.mul (Np.map sin phi) (Np.map sin theta)) ;;
   gradients <- lift (Np.stack 3 [gx; gy; Np.map cos phi]) ;;
   t0 <- lift (tuple_get tileable 0) ;;
   gradients <- lift (tile_axis 0 t0 gradients) ;;
   t1 <- lift (tuple_get tileable 1) ;;
   gradients <- lift (tile_axis 1 t1 gradients) ;;
   t2 <- lift (tuple_get tileable 2) ;;
   gradients <- lift (tile_axis 2 t2 gradients) ;;
   ret gradients)%m.

(** One ramp of lines 80-87: [np.sum(np.stack((x, y, z), axis=3) * g, 3)]. *)
Definition ramp_3d (x y z g : ndarray) : result ndarray :=
  (v <- Np.stack 3 [x; y; z] ;;
   p <- Np.mul v g ;;
   Np.sum 3 p)%res.

(** Lines 70-96; the blends are [mix_r] on lines 90-93 and [mix_l] on
    lines 94-96. *)
Definition blend_3d (d0 d1 d2 : Z) (grid gradients : ndarray)
    (interp : R -> R) : result ndarray :=
  let lo (d : Z) : option Z * option Z := (None, Some (- d)%Z) in
  let hi (d : Z) : option Z * option Z := (Some d, None) in
  (gradients <- Np.repeat d0 0 gradients ;;
   gradients <- Np.repeat d1 1 gradients ;;
   gradients <- Np.repeat d2 2 gradients ;;
   g000 <- Np.slice [lo d0; lo d1; lo d2] gradients ;;
   g100 <- Np.slice [hi d0; lo d1; lo d2] gradients ;;
   g010 <- Np.slice [lo d0; hi d1; lo d2] gradients ;;
   g110 <- Np.slice [hi d0; hi d1; lo d2] gradients ;;
   g001 <- Np.slice [lo d0; lo d1; hi d2] gradients ;;
   g101 <- Np.slice [hi d0; lo d1; hi d2] gradients ;;
   g011 <- Np.slice [lo d0; hi d1; hi d2] gradients ;;
   g111 <- Np.slice [hi d0; hi d1; hi d2] gradients ;;
   x <- Np.getitem_int 3 0 grid ;;
   y <- Np.getitem_int 3 1 grid ;;
   z <- Np.getitem_int 3 2 grid ;;
   n000 <- ramp_3d x y z g000 ;;
   n100 <- ramp_3d (Np.subs x 1) y z g100 ;;
   n010 <- ramp_3d x (Np.subs y 1) z g010 ;;
   n110 <- ramp_3d (Np.subs x 1) (Np.subs y 1) z g110 ;;
   n001 <- ramp_3d x y (Np.subs z 1) g001 ;;
   n101 <- ramp_3d (Np.subs x 1) y (Np.subs z 1) g101 ;;
   n011 <- ramp_3d x (Np.subs y 1) (Np.subs z 1) g011 ;;
   n111 <- ramp_3d (Np.subs x 1) (Np.subs y 1) (Np.subs z 1) g111 ;;
   let t := Np.map interp grid in
   t0 <- Np.getitem_int 3 0 t ;;
   t1 <- Np.getitem_int 3 1 t ;;
   t2 <- Np.getitem_int 3 2 t ;;
   n00 <- mix_r n000 t0 n100 ;;
   n10 <- mix_r n010 t0 n110 ;;
   n01 <- mix_r n001 t0 n101 ;;
   n11 <- mix_r n011 t0 n111 ;;
   n0 <- mix_l t1 n00 n10 ;;
   n1 <- mix_l t1 n01 n11 ;;
   mix_l t2 n0 n1)%res.

Definition generate_perlin_noise_3d (shape res : list Z)
    (tileable : list bool) (interp : R -> R) : M ndarray :=
  (dg <- lift (sample_grid_3d shape res) ;;
   let '(d0, d1, d2, grid) := dg in
   gradients <- gradient_lattice_3d res tileable ;;
   lift (blend_3d d0 d1 d2 grid gradients interp))%m.

(** Lines 131-138 of [generate_fractal_noise_3d], the loop body. *)
Definition octave_3d (shape res : list Z) (persistence : R) (lacunarity : Z)
    (tileable : list bool) (interp : R -> R) (s : octave_state)
  : M octave_state :=
  let '(noise, frequency, amplitude) := s in
  (r0 <- lift (tuple_get res 0) ;;
   r1 <- lift (tuple_get res 1) ;;
   r2 <- lift (tuple_get res 2) ;;
   f <- generate_perlin_noise_3d shape
          [(frequency * r0)%Z; (frequency * r1)%Z; (frequency * r2)%Z]
          tileable interp ;;
   noise <- lift (Np.iadd noise (Np.smul amplitude f)) ;;
   ret (noise, (frequency * lacunarity)%Z, (amplitude * persistence)%R))%m.

(** [generate_fractal_noise_3d], lines 127-139. *)
Definition generate_fractal_noise_3d (shape res : list Z) (octaves : Z)
    (persistence : R) (lacunarity : Z) (tileable : list bool)
    (interp : R -> R) : M ndarray :=
  (noise <- lift (Np.zeros shape) ;;
   s <- for_range (Z.to_nat octaves)
          (octave_3d shape res persistence lacunarity tileable interp)
          (noise, 1%Z, 1%R) ;;
   ret (fst (fst s)))%m.

(** * Specification-level definitions *)

(** An operation returns the array of shape [s] with elements [g]. *)
Definition yields (r : result ndarray) (s : list nat) (g : list nat -> R)
  : Prop :=
  exists c, r = Ok c /\ shape c = s /\ forall idx, get c idx = g idx.

(** The lattice index a corner reads its gradient from, on an axis of
    [n] lattice points: the last one reads the first when the axis is
    tileable. *)
Definition seam (t : bool) (n i : nat) : nat :=
  if t && Nat.eqb i (n - 1) then 0 else i.

(** The angle drawn [k] draws after the state [st]. *)
Definition angle_at (st : rng) (k : nat) : R :=
  (2 * PI * draws st (pos st + k))%R.

(** The generator after [n] more draws. *)
Definition advance (st : rng) (n : nat) : rng :=
  mk_rng (draws st) (pos st + n).

(** The unit vector of angle [theta], by component. *)
Definition unit_2d (theta : R) (c : nat) : R :=
  nth c [cos theta; sin theta] 0%R.

(** Component [c] of the gradient at the lattice corner [(a, b)], for a
    lattice of [n0] by [n1] corners drawn from the state [st]. *)
Definition lattice_gradient_2d (st : rng) (n0 n1 : nat) (t0 t1 : bool)
    (a b c : nat) : R :=
  unit_2d (angle_at st (seam t0 n0 a * n1 + seam t1 n1 b)) c.

(** The local coordinate of sample [i] on an axis of [s] samples and
    [r] cells: [(i * (r / s) + 0) % 1]. *)
Definition local_coord (r s : Z) (i : nat) : R :=
  frac_part (INR i * (IZR r / IZR s) + 0)%R.

(** Linear interpolation between [a] and [b] with weight [t]. *)
Definition lerp (t a b : R) : R := (a * (1 - t) + t * b)%R.

(** The value the specification gives one sample in 2D: the ramps of
    the four corners, the dot products of the offsets from the corners
    with the corner gradients [g], blended along the first axis and
    then along the second. *)
Definition bilinear (interp : R -> R) (x y : R) (g : nat -> nat -> nat -> R)
  : R :=
  let ramp a b :=
    ((x - INR a) * g a b 0%nat + (y - INR b) * g a b 1%nat)%R in
  lerp (interp y)
    (lerp (interp x) (ramp 0%nat 0%nat) (ramp 1%nat 0%nat))
    (lerp (interp x) (ramp 0%nat 1%nat) (ramp 1%nat 1%nat)).

Definition perlin_sample_2d (interp : R -> R) (x y : R)
    (g : nat -> nat -> nat -> R) : R :=
  (sqrt 2 * bilinear interp x y g)%R.

(** The sample [(i, j)] of the 2D field of [shape = (s0, s1)] and
    [res = (r0, r1)] generated from the state [st]. *)
Definition perlin_value_2d (st : rng) (s0 s1 r0 r1 : Z) (t0 t1 : bool)
    (interp : R -> R) (i j : nat) : R :=
  perlin_sample_2d interp (local_coord r0 s0 i) (local_coord r1 s1 j)
    (fun a b c =>
       lattice_gradient_2d st (Z.to_nat (r0 + 1)) (Z.to_nat (r1 + 1)) t0 t1
         (i / Z.to_nat (s0 / r0) + a) (j / Z.to_nat (s1 / r1) + b) c).

(** The evaluator called once for each of [n] octaves, at the
    frequencies [lac ^ k], [lac ^ (k + 1)], ..., on the generator in
    this order; the fields it returns. *)
Fixpoint run_octaves (eval : Z -> M ndarray) (lac : Z) (n k : nat)
  : M (list ndarray) :=
  match n with
  | O => ret []
  | S n' =>
      (f <- eval (lac ^ Z.of_nat k)%Z ;;
       fs <- run_octaves eval lac n' (S k) ;;
       ret (f :: fs))%m
  end.

(** The sum over the fields [fs] of [pers ^ k] times the field number
    [k], counted from [k], at the index [idx]. *)
Fixpoint octave_sum (pers : R) (k : nat) (fs : list ndarray) (idx : list nat)
  : R :=
  match fs with
  | [] => 0%R
  | f :: fs' => (pers ^ k * get f idx + octave_sum pers (S k) fs' idx)%R
  end.

(** Two arrays are the same array: one shape and one element at every
    index of that shape. *)
Definition same_array (a b : ndarray) : Prop :=
  shape a = shape b
  /\ forall idx, in_bounds idx (shape a) -> get a idx = get b idx.

(** The single-octave evaluators at a frequency, as the octave loops
    call them. *)
Definition evaluator_2d (shape : list Z) (r0 r1 : Z) (tileable : list bool)
    (interp : R -> R) (frequency : Z) : M ndarray :=
  generate_perlin_noise_2d shape [(frequency * r0)%Z; (frequency * r1)%Z]
    tileable interp.

Definition evaluator_3d (shape : list Z) (r0 r1 r2 : Z)
    (tileable : list bool) (interp : R -> R) (frequency : Z) : M ndarray :=
  generate_perlin_noise_3d shape
    [(frequency * r0)%Z; (frequency * r1)%Z; (frequency * r2)%Z]
    tileable interp.

(** The unit vector of angles [theta] and [phi], by component. *)
Definition unit_3d (theta phi : R) (c : nat) : R :=
  nth c [(sin phi * cos theta)%R; (sin phi * sin theta)%R; cos phi] 0%R.

(** Component [comp] of the gradient at the lattice corner [(a, b, c)]
    of a lattice of [n0] by [n1] by [n2] corners: the angles [theta]
    are drawn first, one for each corner, and the angles [phi] next. *)
Definition lattice_gradient_3d (st : rng) (n0 n1 n2 : nat) (t0 t1 t2 : bool)
    (a b c comp : nat) : R :=
  let k := (seam t0 n0 a * n1 + seam t1 n1 b) * n2 + seam t2 n2 c in
  unit_3d (angle_at st k) (angle_at st (n0 * n1 * n2 + k)) comp.

(** The value the specification gives one sample in 3D: the ramps of
    the eight corners blended along the three axes in turn. *)
Definition trilinear (interp : R -> R) (x y z : R)
    (g : nat -> nat -> nat -> nat -> R) : R :=
  let ramp a b c :=
    ((x - INR a) * g a b c 0%nat + (y - INR b) * g a b c 1%nat
     + (z - INR c) * g a b c 2%nat)%R in
  let o := 0%nat in
  let i := 1%nat in
  lerp (interp z)
    (lerp (interp y)
       (lerp (interp x) (ramp o o o) (ramp i o o))
       (lerp (interp x) (ramp o i o) (ramp i i o)))
    (lerp (interp y)
       (lerp (interp x) (ramp o o i) (ramp i o i))
       (lerp (interp x) (ramp o i i) (ramp i i i))).

(** The sample [(i, j, k)] of the 3D field of [shape = (s0, s1, s2)]
    and [res = (r0, r1, r2)] generated from the state [st]. *)
Definition perlin_value_3d (st : rng) (s0 s1 s2 r0 r1 r2 : Z)
    (t0 t1 t2 : bool) (interp : R -> R) (i j k : nat) : R :=
  trilinear interp (local_coord r0 s0 i) (local_coord r1 s1 j)
    (local_coord r2 s2 k)
    (fun a b c comp =>
       lattice_gradient_3d st (Z.to_nat (r0 + 1)) (Z.to_nat (r1 + 1))
         (Z.to_nat (r2 + 1)) t0 t1 t2
         (i / Z.to_nat (s0 / r0) + a) (j / Z.to_nat (s1 / r1) + b)
         (k / Z.to_nat (s2 / r2) + c) comp).

(** A generator whose every draw is [u], at its first draw. *)
Definition constant_rng (u : R) : rng := mk_rng (fun _ => u) 0.

(** The draws of a generator are in [0, 1), as those of
    [np.random.rand] are. *)
Definition uniform_draws (st : rng) : Prop :=
  forall k, (0 <= draws st k < 1)%R.



(** The outcome of an array computation up to the elements of the
    array: its shape, or the exception. *)
Definition outcome (r : result ndarray) : result (list nat) :=
  match r with
  | Ok a => Ok (shape a)
  | Raise e => Raise e
  end.



(** The sum of the amplitudes of [n] octaves: [1 + pers + ... +
    pers ^ (n - 1)]. *)
Fixpoint amplitude_sum (pers : R) (n : nat) : R :=
  match n with
  | O => 0%R
  | S n' => (1 + pers * amplitude_sum pers n')%R
  end.



(** The exception of a shape or res that the sample grid refuses: a
    division by zero comes first. *)
Definition grid_exception (zero : bool) : exn :=
  if zero then ZeroDivisionError else ValueError.

(** The point [k] of [n] points evenly spaced from [start] to [stop],
    both included; a single point is [start]. *)
Definition linspace_point (start stop : R) (n k : nat) : R :=
  if Nat.leb n 1 then start
  else (start + INR k * (stop - start) / INR (n - 1))%R.
(** * Properties *)

(** Running one operation of a [result] computation. *)
Tactic Notation "step" constr(H) :=
  let c := fresh "a" in
  let E := fresh "E" in
  let Hs := fresh "Hs" c in
  let Hg := fresh "Hg" c in
  destruct H as (c & E & Hs & Hg); rewrite E; cbn [rbind]; clear E.

Tactic Notation "step" constr(H) "as" ident(c) :=
  let E := fresh "E" in
  let Hs := fresh "Hs" c in
  let Hg := fresh "Hg" c in
  destruct H as (c & E & Hs & Hg); rewrite E; cbn [rbind]; clear E.

Ltac bounds :=
  unfold in_bounds; repeat (apply Forall2_cons; [lia|]); apply Forall2_nil.



(** ** Arithmetic of the grid *)

Lemma Int_part_IZR (z : Z) : Int_part (IZR z) = z.
Proof.
  symmetry. apply Int_part_spec. split; lra.
Qed.

Lemma Rceil_IZR (z : Z) : Rceil (IZR z) = z.
Proof.
  unfold Rceil. rewrite <- opp_IZR, Int_part_IZR. lia.
Qed.

Lemma IZR_neq0 (z : Z) : z <> 0%Z -> IZR z <> 0%R.
Proof.
  intros H E. apply H. now apply eq_IZR_R0.
Qed.

(** The grid has as many samples on an axis as [shape] asks for. *)
Lemma mgrid_len_exact (r s : Z) :
  r <> 0%Z -> s <> 0%Z -> Np.mgrid_len (0%Z, r, (IZR r / IZR s)%R) = s.
Proof.
  intros Hr Hs. unfold Np.mgrid_len.
  replace (IZR (r - 0) / (IZR r / IZR s * 1))%R with (IZR s).
  - apply Rceil_IZR.
  - rewrite Z.sub_0_r. field. split; now apply IZR_neq0.
Qed.

Lemma delta_neq0 (r s : Z) :
  r <> 0%Z -> s <> 0%Z -> (IZR r / IZR s)%R <> 0%R.
Proof.
  intros Hr Hs E.
  apply (IZR_neq0 Hr).
  apply (Rmult_eq_compat_r (IZR s)) in E.
  unfold Rdiv in E. rewrite Rmult_assoc, Rinv_l, Rmult_1_r, Rmult_0_l in E.
  - exact E.
  - now apply IZR_neq0.
Qed.

(** ** Broadcasting of equal shapes *)

Lemma list_eqb_refl (l : list nat) : list_eqb l l = true.
Proof.
  induction l as [|x l IH]; simpl; [reflexivity|].
  now rewrite Nat.eqb_refl.
Qed.


Lemma bshape_rev_same (l : list nat) : bshape_rev l l = Some l.
Proof.
  induction l as [|x l IH]; simpl; [reflexivity|].
  now rewrite IH, Nat.eqb_refl.
Qed.

Lemma broadcast_shapes_same (s : list nat) : broadcast_shapes s s = Some s.
Proof.
  unfold broadcast_shapes. rewrite bshape_rev_same. simpl.
  now rewrite rev_involutive.
Qed.

Lemma bidx_aux_id (s idx : list nat) :
  Forall2 lt idx s -> bidx_aux s idx = idx.
Proof.
  induction 1 as [|i n idx s Hlt _ IH]; simpl; [reflexivity|].
  rewrite IH. destruct (Nat.eqb_spec n 1); [f_equal; lia | reflexivity].
Qed.

Lemma bidx_id (s idx : list nat) : in_bounds idx s -> bidx s idx = idx.
Proof.
  intros H. unfold bidx.
  rewrite (Forall2_length H), Nat.sub_diag. simpl.
  now apply bidx_aux_id.
Qed.

(** ** The sample grid *)

Lemma sample_grid_2d_ok (s0 s1 r0 r1 : Z) (ss rs : list Z) :
  (0 < s0)%Z -> (0 < s1)%Z -> r0 <> 0%Z -> r1 <> 0%Z ->
  exists grid,
    sample_grid_2d (s0 :: s1 :: ss) (r0 :: r1 :: rs)
    = Ok ((s0 / r0)%Z, (s1 / r1)%Z, grid)
    /\ shape grid = [Z.to_nat s0; Z.to_nat s1; 2]
    /\ forall i j,
        get grid [i; j; 0] = frac_part (INR i * (IZR r0 / IZR s0) + 0)
        /\ get grid [i; j; 1] = frac_part (INR j * (IZR r1 / IZR s1) + 0).
Proof.
  intros Hs0 Hs1 Hr0 Hr1.
  unfold sample_grid_2d, tuple_get, truediv, floordiv. cbn [nth_error rbind].
  replace (s0 =? 0)%Z with false by (symmetry; apply Z.eqb_neq; lia).
  replace (s1 =? 0)%Z with false by (symmetry; apply Z.eqb_neq; lia).
  replace (r0 =? 0)%Z with false by (symmetry; apply Z.eqb_neq; lia).
  replace (r1 =? 0)%Z with false by (symmetry; apply Z.eqb_neq; lia).
  cbn [rbind]. unfold Np.mgrid. cbn [existsb snd].
  destruct (Req_dec_T (IZR r0 / IZR s0) 0) as [E|_];
    [exfalso; revert E; apply delta_neq0; lia|].
  destruct (Req_dec_T (IZR r1 / IZR s1) 0) as [E|_];
    [exfalso; revert E; apply delta_neq0; lia|].
  cbn [orb List.map].
  rewrite !mgrid_len_exact by lia.
  unfold nonneg. cbn [forallb].
  replace (0 <=? s0)%Z with true by (symmetry; apply Z.leb_le; lia).
  replace (0 <=? s1)%Z with true by (symmetry; apply Z.leb_le; lia).
  cbn.
  eexists. split; [reflexivity|]. split; [reflexivity|].
  intros i j. cbn. split; reflexivity.
Qed.

(** ** The numpy operations on arrays of a known shape

    Each lemma gives the array an operation returns, by its shape and
    its element at every index, under the condition that makes numpy
    accept the operands. *)

Lemma binop_yields (f : R -> R -> R) (a b : ndarray) (s : list nat) :
  shape a = s -> shape b = s ->
  yields (Np.binop f a b) s
    (fun idx => f (get a (bidx s idx)) (get b (bidx s idx))).
Proof.
  intros Ha Hb. unfold Np.binop. rewrite Ha, Hb, broadcast_shapes_same.
  eexists. repeat split.
Qed.

Lemma norm_index_nonneg (n : nat) (k : Z) :
  (0 <= k < Z.of_nat n)%Z -> Np.norm_index n k = Ok (Z.to_nat k).
Proof.
  intros H. unfold Np.norm_index.
  replace (k <? 0)%Z with false by (symmetry; apply Z.ltb_ge; lia).
  replace (0 <=? k)%Z with true by (symmetry; apply Z.leb_le; lia).
  replace (k <? Z.of_nat n)%Z with true by (symmetry; apply Z.ltb_lt; lia).
  reflexivity.
Qed.

Lemma norm_index_last (n : nat) :
  0 < n -> Np.norm_index n (-1) = Ok (n - 1).
Proof.
  intros H. unfold Np.norm_index.
  replace (-1 <? 0)%Z with true by reflexivity.
  replace (0 <=? -1 + Z.of_nat n)%Z with true by (symmetry; apply Z.leb_le; lia).
  replace (-1 + Z.of_nat n <? Z.of_nat n)%Z with true
    by (symmetry; apply Z.ltb_lt; lia).
  cbn [andb]. f_equal. lia.
Qed.

Lemma getitem_int_yields (ax : nat) (k : Z) (a : ndarray) (s : list nat) :
  shape a = s -> ax < length s -> (0 <= k < Z.of_nat (nth ax s 0%nat))%Z ->
  yields (Np.getitem_int ax k a) (remove_nth ax s)
    (fun idx => get a (insert_nth ax (Z.to_nat k) idx)).
Proof.
  intros Ha Hax Hk. unfold Np.getitem_int, rank. rewrite Ha.
  replace (ax <? length s) with true by (symmetry; now apply Nat.ltb_lt).
  rewrite norm_index_nonneg by assumption. cbn [rbind].
  eexists. repeat split.
Qed.

Lemma setitem_last_yields (ax : nat) (a v : ndarray) (s : list nat) :
  shape a = s -> ax < length s -> 0 < nth ax s 0 ->
  shape v = remove_nth ax s ->
  yields (Np.setitem_int ax (-1) a v) s
    (fun idx =>
       if Nat.eqb (nth ax idx 0) (nth ax s 0 - 1)
       then get v (bidx (remove_nth ax s) (remove_nth ax idx))
       else get a idx).
Proof.
  intros Ha Hax Hn Hv. unfold Np.setitem_int, rank. rewrite Ha, Hv.
  replace (ax <? length s) with true by (symmetry; now apply Nat.ltb_lt).
  rewrite norm_index_last by assumption. cbn [rbind].
  rewrite broadcast_shapes_same, list_eqb_refl.
  eexists. repeat split.
Qed.

Lemma repeat_yields (d : Z) (ax : nat) (a : ndarray) (s : list nat) :
  shape a = s -> ax < length s -> (0 <= d)%Z ->
  yields (Np.repeat d ax a) (set_nth ax (nth ax s 0 * Z.to_nat d) s)
    (fun idx => get a (set_nth ax (nth ax idx 0 / Z.to_nat d) idx)).
Proof.
  intros Ha Hax Hd. unfold Np.repeat, rank. rewrite Ha.
  replace (ax <? length s) with true by (symmetry; now apply Nat.ltb_lt).
  replace (d <? 0)%Z with false by (symmetry; apply Z.ltb_ge; lia).
  cbn [negb]. eexists. repeat split.
Qed.

Lemma slice_yields (sls : list (option Z * option Z)) (a : ndarray)
    (s : list nat) :
  shape a = s -> length sls <= length s ->
  yields (Np.slice sls a) (Np.slice_shape sls s)
    (fun idx => get a (Np.slice_index sls s idx)).
Proof.
  intros Ha Hl. unfold Np.slice, rank. rewrite Ha.
  replace (length sls <=? length s) with true
    by (symmetry; now apply Nat.leb_le).
  eexists. repeat split.
Qed.

Lemma sum_yields (ax : nat) (a : ndarray) (s : list nat) :
  shape a = s -> ax < length s ->
  yields (Np.sum ax a) (remove_nth ax s)
    (fun idx =>
       fold_left Rplus
         (List.map (fun k => get a (insert_nth ax k idx))
            (seq 0 (nth ax s 0)))
         0%R).
Proof.
  intros Ha Hax. unfold Np.sum, rank. rewrite Ha.
  replace (ax <? length s) with true by (symmetry; now apply Nat.ltb_lt).
  eexists. repeat split.
Qed.

Lemma stack_yields (ax : nat) (a0 : ndarray) (rest : list ndarray)
    (s : list nat) :
  Forall (fun a => shape a = s) (a0 :: rest) -> ax <= length s ->
  yields (Np.stack ax (a0 :: rest)) (insert_nth ax (S (length rest)) s)
    (fun idx => get (nth (nth ax idx 0) (a0 :: rest) a0) (remove_nth ax idx)).
Proof.
  intros Hall Hax. unfold Np.stack, rank.
  assert (H0 : shape a0 = s) by (now inversion Hall).
  replace (forallb (fun a => list_eqb (shape a) (shape a0)) (a0 :: rest))
    with true.
  - rewrite H0.
    replace (ax <=? length s) with true by (symmetry; now apply Nat.leb_le).
    eexists. repeat split.
  - symmetry. apply forallb_forall. intros a Ha.
    rewrite Forall_forall in Hall. rewrite (Hall a Ha), H0.
    apply list_eqb_refl.
Qed.

(** ** Index lists in bounds *)

Lemma remove_nth_in_bounds (ax : nat) (idx s : list nat) :
  in_bounds idx s -> in_bounds (remove_nth ax idx) (remove_nth ax s).
Proof.
  unfold in_bounds. intros H. revert ax.
  induction H as [|i n idx s Hlt H IH]; intros [|ax]; simpl;
    try constructor; auto.
Qed.

Lemma insert_remove_nth (ax v : nat) (idx : list nat) :
  ax < length idx -> insert_nth ax v (remove_nth ax idx) = set_nth ax v idx.
Proof.
  revert ax. induction idx as [|i idx IH]; intros [|ax] H; simpl in *;
    try lia; [reflexivity|].
  f_equal. apply IH. lia.
Qed.

Lemma set_nth_same (ax : nat) (idx : list nat) :
  set_nth ax (nth ax idx 0) idx = idx.
Proof.
  revert ax. induction idx as [|i idx IH]; intros [|ax]; simpl;
    try reflexivity.
  f_equal. apply IH.
Qed.

(** ** The seam of a tileable axis *)

Lemma tile_axis_ok (ax : nat) (t : bool) (g : ndarray) (s : list nat) :
  shape g = s -> ax < length s -> 0 < nth ax s 0 ->
  exists g',
    tile_axis ax t g = Ok g' /\ shape g' = s
    /\ forall idx, in_bounds idx s ->
         get g' idx
         = get g (set_nth ax (seam t (nth ax s 0) (nth ax idx 0)) idx).
Proof.
  intros Hs Hax Hn. unfold tile_axis, seam. destruct t; cbn [andb].
  - step (@getitem_int_yields ax 0 g s Hs Hax ltac:(lia)).
    step (@setitem_last_yields ax g a s Hs Hax Hn Hsa).
    exists a0. split; [reflexivity|]. split; [assumption|].
    intros idx Hidx. rewrite Hga0.
    destruct (Nat.eqb (nth ax idx 0) (nth ax s 0 - 1)).
    + rewrite bidx_id by now apply remove_nth_in_bounds.
      rewrite Hga. cbn [Z.to_nat]. rewrite insert_remove_nth; [reflexivity|].
      now rewrite (Forall2_length Hidx).
    + now rewrite set_nth_same.
  - exists g. split; [reflexivity|]. split; [assumption|].
    intros idx _. now rewrite set_nth_same.
Qed.

Lemma rand_run (dims : list Z) (st : rng) :
  nonneg dims = true ->
  Np.rand dims st
  = (Ok (mk_nd (map Z.to_nat dims)
           (fun idx => draws st (pos st + ravel (map Z.to_nat dims) idx))),
     mk_rng (draws st) (pos st + prod_list (map Z.to_nat dims))).
Proof. intros H. unfold Np.rand. now rewrite H. Qed.

Lemma seam_lt t n i : i < n -> seam t n i < n.
Proof. unfold seam. destruct (t && Nat.eqb i (n - 1)); lia. Qed.

(** ** The gradient lattice in 2D *)

Lemma gradient_lattice_2d_ok (r0 r1 : Z) (rs : list Z) (t0 t1 : bool)
    (ts : list bool) (st : rng) :
  (0 <= r0)%Z -> (0 <= r1)%Z ->
  let n0 := Z.to_nat (r0 + 1) in
  let n1 := Z.to_nat (r1 + 1) in
  exists L, gradient_lattice_2d (r0 :: r1 :: rs) (t0 :: t1 :: ts) st
            = (Ok L, mk_rng (draws st) (pos st + n0 * n1))
   /\ shape L = [n0; n1; 2]
   /\ forall i j c, i < n0 -> j < n1 -> c < 2 ->
        get L [i; j; c]
        = nth c [cos (angle_at st (seam t0 n0 i * n1 + seam t1 n1 j));
                 sin (angle_at st (seam t0 n0 i * n1 + seam t1 n1 j))] 0%R.
Proof.
  intros H0 H1 n0 n1.
  assert (Hn0 : 0 < n0) by (unfold n0; lia).
  assert (Hn1 : 0 < n1) by (unfold n1; lia).
  unfold gradient_lattice_2d, tuple_get, lift, bind, ret. cbn [nth_error].
  rewrite rand_run
    by (unfold nonneg; cbn [forallb]; rewrite !andb_true_iff;
        repeat split; apply Z.leb_le; lia).
  cbn [List.map]. fold n0 n1.
  set (u := mk_nd [n0; n1] _).
  unfold Np.dstack.
  destruct (@stack_yields 2 (Np.map cos (Np.smul (2 * PI) u))
          [Np.map sin (Np.smul (2 * PI) u)] [n0; n1]) as (g & E & Hsg & Hgg).
  { repeat constructor. } { simpl; lia. }
  rewrite E; clear E. cbn [insert_nth length] in Hsg.
  destruct (@tile_axis_ok 0 t0 g _ Hsg) as (g1 & E & Hs1 & Hg1);
    [simpl; lia | simpl; lia |]. rewrite E; clear E.
  destruct (@tile_axis_ok 1 t1 g1 _ Hs1) as (g2 & E & Hs2 & Hg2);
    [simpl; lia | simpl; lia |]. rewrite E; clear E.
  exists g2. split; [f_equal; f_equal; simpl; lia|]. split; [exact Hs2|].
  intros i j c Hi Hj Hc. cbn [nth] in Hg1, Hg2.
  rewrite Hg2 by bounds. cbn [nth set_nth].
  rewrite Hg1 by (pose proof (@seam_lt t1 n1 j Hj); bounds).
  cbn [nth set_nth]. rewrite Hgg. cbn [nth remove_nth].
  destruct c as [|[|c]]; [| |lia]; cbn [nth Np.map Np.smul get u shape];
    unfold ravel, angle_at; cbn [combine fold_left fst snd];
    reflexivity.
Qed.

(** ** The ramps and their blend in 2D *)

Lemma slice_bounds_lo (n : nat) (d : Z) :
  (0 < d)%Z ->
  Np.slice_bounds n (None, Some (- d)%Z) = (0, n - Z.to_nat d).
Proof.
  intros Hd. unfold Np.slice_bounds. cbn [fst snd].
  replace (- d <? 0)%Z with true by (symmetry; apply Z.ltb_lt; lia).
  f_equal. lia.
Qed.

Lemma slice_bounds_hi (n : nat) (d : Z) :
  (0 <= d)%Z -> (d <= Z.of_nat n)%Z ->
  Np.slice_bounds n (Some d, None) = (Z.to_nat d, n - Z.to_nat d).
Proof.
  intros Hd Hn. unfold Np.slice_bounds. cbn [fst snd].
  replace (d <? 0)%Z with false by (symmetry; apply Z.ltb_ge; lia).
  f_equal; lia.
Qed.

Lemma fold_sum2 (a b : R) : fold_left Rplus [a; b] 0%R = (a + b)%R.
Proof. simpl. ring. Qed.

Lemma ramp_2d_yields (x y g : ndarray) (s0 s1 : nat) :
  shape x = [s0; s1] -> shape y = [s0; s1] -> shape g = [s0; s1; 2] ->
  exists n,
    ramp_2d x y g = Ok n /\ shape n = [s0; s1]
    /\ forall i j, i < s0 -> j < s1 ->
         get n [i; j]
         = (get x [i; j] * get g [i; j; 0%nat] + get y [i; j] * get g [i; j; 1%nat])%R.
Proof.
  intros Hx Hy Hg. unfold ramp_2d, Np.dstack, Np.mul.
  step (@stack_yields 2 x [y] [s0; s1] ltac:(repeat constructor; assumption)
          ltac:(simpl; lia)).
  cbn [insert_nth length] in Hsa.
  step (@binop_yields Rmult a g _ Hsa Hg).
  destruct (@sum_yields 2 a0 _ Hsa0 ltac:(simpl; lia)) as (n & E & Hsn & Hgn).
  exists n. split; [exact E|]. split; [exact Hsn|].
  intros i j Hi Hj. rewrite Hgn. cbn [nth seq List.map insert_nth].
  rewrite fold_sum2, !Hga0, !bidx_id by bounds. rewrite !Hga.
  reflexivity.
Qed.

Lemma mix_r_yields (a t b : ndarray) (s : list nat) :
  shape a = s -> shape t = s -> shape b = s ->
  exists n,
    mix_r a t b = Ok n /\ shape n = s
    /\ forall idx, in_bounds idx s ->
         get n idx = lerp (get t idx) (get a idx) (get b idx).
Proof.
  intros Ha Ht Hb. unfold mix_r, Np.mul, Np.add.
  step (@binop_yields Rmult a (Np.rsub 1 t) s Ha Ht).
  step (@binop_yields Rmult t b s Ht Hb).
  destruct (@binop_yields Rplus a0 a1 s Hsa0 Hsa1) as (n & E & Hsn & Hgn).
  exists n. split; [exact E|]. split; [exact Hsn|].
  intros idx Hidx. rewrite Hgn, !bidx_id by assumption.
  rewrite Hga0, Hga1, !bidx_id by assumption.
  reflexivity.
Qed.

Lemma mix_l_yields (t a b : ndarray) (s : list nat) :
  shape t = s -> shape a = s -> shape b = s ->
  exists n,
    mix_l t a b = Ok n /\ shape n = s
    /\ forall idx, in_bounds idx s ->
         get n idx = lerp (get t idx) (get a idx) (get b idx).
Proof.
  intros Ht Ha Hb. unfold mix_l, Np.mul, Np.add.
  step (@binop_yields Rmult (Np.rsub 1 t) a s Ht Ha).
  step (@binop_yields Rmult t b s Ht Hb).
  destruct (@binop_yields Rplus a0 a1 s Hsa0 Hsa1) as (n & E & Hsn & Hgn).
  exists n. split; [exact E|]. split; [exact Hsn|].
  intros idx Hidx. rewrite Hgn, !bidx_id by assumption.
  rewrite Hga0, Hga1, !bidx_id by assumption.
  unfold lerp. cbn [Np.rsub Np.map get]. ring.
Qed.

Lemma div_add_one (d i : nat) : 0 < d -> (d + i) / d = i / d + 1.
Proof.
  intros Hd. replace (d + i) with (i + 1 * d) by lia.
  rewrite Nat.div_add by lia. reflexivity.
Qed.

Lemma blend_2d_ok (R0 R1 D0 D1 : nat) (grid L : ndarray) (interp : R -> R) :
  0 < D0 -> 0 < D1 ->
  shape grid = [R0 * D0; R1 * D1; 2] ->
  shape L = [S R0; S R1; 2] ->
  exists F,
    blend_2d (Z.of_nat D0) (Z.of_nat D1) grid L interp = Ok F
    /\ shape F = [R0 * D0; R1 * D1]
    /\ forall i j, i < R0 * D0 -> j < R1 * D1 ->
         get F [i; j]
         = perlin_sample_2d interp (get grid [i; j; 0]) (get grid [i; j; 1])
             (fun a b c => get L [i / D0 + a; j / D1 + b; c]).
Proof.
  intros HD0 HD1 Hgrid HL. unfold blend_2d.
  step (@repeat_yields (Z.of_nat D0) 0 L _ HL ltac:(simpl; lia) ltac:(lia))
    as rep0.
  cbn [set_nth nth] in Hsrep0. rewrite Nat2Z.id in Hsrep0, Hgrep0.
  step (@repeat_yields (Z.of_nat D1) 1 rep0 _ Hsrep0 ltac:(simpl; lia)
          ltac:(lia)) as rep.
  cbn [set_nth nth] in Hsrep. rewrite Nat2Z.id in Hsrep, Hgrep.
  step (@slice_yields
          [(None, Some (- Z.of_nat D0)%Z); (None, Some (- Z.of_nat D1)%Z)]
          rep _ Hsrep ltac:(simpl; lia)) as g00.
  step (@slice_yields
          [(Some (Z.of_nat D0), None); (None, Some (- Z.of_nat D1)%Z)]
          rep _ Hsrep ltac:(simpl; lia)) as g10.
  step (@slice_yields
          [(None, Some (- Z.of_nat D0)%Z); (Some (Z.of_nat D1), None)]
          rep _ Hsrep ltac:(simpl; lia)) as g01.
  step (@slice_yields
          [(Some (Z.of_nat D0), None); (Some (Z.of_nat D1), None)]
          rep _ Hsrep ltac:(simpl; lia)) as g11.
  cbn [Np.slice_shape Np.slice_index] in *.
  rewrite !slice_bounds_lo, !slice_bounds_hi in * by lia.
  cbn [fst snd] in *. rewrite !Nat2Z.id in *.
  replace (S R0 * D0 - D0) with (R0 * D0) in * by lia.
  replace (S R1 * D1 - D1) with (R1 * D1) in * by lia.
  step (@getitem_int_yields 2 0 grid _ Hgrid ltac:(simpl; lia)
          ltac:(simpl; lia)) as x.
  step (@getitem_int_yields 2 1 grid _ Hgrid ltac:(simpl; lia)
          ltac:(simpl; lia)) as y.
  cbn [remove_nth] in Hsx, Hsy.
  step (@ramp_2d_yields x y g00 _ _ Hsx Hsy Hsg00) as n00.
  step (@ramp_2d_yields (Np.subs x 1) y g10 _ _ Hsx Hsy Hsg10) as n10.
  step (@ramp_2d_yields x (Np.subs y 1) g01 _ _ Hsx Hsy Hsg01) as n01.
  step (@ramp_2d_yields (Np.subs x 1) (Np.subs y 1) g11 _ _ Hsx Hsy Hsg11)
    as n11.
  assert (Hst : shape (Np.map interp grid) = [R0 * D0; R1 * D1; 2])
    by exact Hgrid.
  step (@getitem_int_yields 2 0 (Np.map interp grid) _ Hst ltac:(simpl; lia)
          ltac:(simpl; lia)) as t0.
  step (@getitem_int_yields 2 1 (Np.map interp grid) _ Hst ltac:(simpl; lia)
          ltac:(simpl; lia)) as t1.
  cbn [remove_nth] in Hst0, Hst1.
  step (@mix_r_yields n00 t0 n10 _ Hsn00 Hst0 Hsn10) as n0.
  step (@mix_r_yields n01 t0 n11 _ Hsn01 Hst0 Hsn11) as n1.
  step (@mix_l_yields t1 n0 n1 _ Hst1 Hsn0 Hsn1) as s.
  eexists. split; [reflexivity|]. split; [exact Hss|].
  intros i j Hi Hj.
  assert (Hb : in_bounds [i; j] [R0 * D0; R1 * D1]) by bounds.
  cbn [Np.smul Np.map get].
  rewrite (Hgs _ Hb), (Hgn0 _ Hb), (Hgn1 _ Hb).
  rewrite Hgn00, Hgn10, Hgn01, Hgn11 by assumption.
  change (Z.to_nat 0) with 0 in *. change (Z.to_nat 1) with 1 in *.
  cbn [Np.subs Np.map get].
  rewrite !Hgt0, !Hgt1, !Hgx, !Hgy, !Hgg00, !Hgg10, !Hgg01, !Hgg11.
  rewrite !Hgrep. cbn [nth set_nth]. rewrite !Hgrep0.
  cbn [nth set_nth insert_nth Nat.add Np.map get].
  rewrite !div_add_one by assumption.
  unfold perlin_sample_2d, bilinear. cbn [INR].
  rewrite !Nat.add_0_r, !Rminus_0_r.
  reflexivity.
Qed.

(** ** The 2D evaluator on a valid input *)

Lemma to_nat_exact (r s : Z) :
  (0 < r)%Z -> (0 < s)%Z -> (r | s)%Z ->
  Z.to_nat s = Z.to_nat r * Z.to_nat (s / r)
  /\ 0 < Z.to_nat (s / r)
  /\ Z.of_nat (Z.to_nat (s / r)) = (s / r)%Z.
Proof.
  intros Hr Hs [q Hq]. subst s.
  rewrite Z.div_mul by lia.
  assert (0 < q)%Z by nia.
  repeat split; try lia.
Qed.

Lemma perlin_2d_ok (s0 s1 r0 r1 : Z) (ss rs : list Z) (t0 t1 : bool)
    (ts : list bool) (interp : R -> R) (st : rng) :
  (0 < s0)%Z -> (0 < s1)%Z -> (0 < r0)%Z -> (0 < r1)%Z ->
  (r0 | s0)%Z -> (r1 | s1)%Z ->
  exists F,
    generate_perlin_noise_2d (s0 :: s1 :: ss) (r0 :: r1 :: rs)
      (t0 :: t1 :: ts) interp st
    = (Ok F, advance st (Z.to_nat (r0 + 1) * Z.to_nat (r1 + 1)))
    /\ shape F = [Z.to_nat s0; Z.to_nat s1]
    /\ forall i j, i < Z.to_nat s0 -> j < Z.to_nat s1 ->
         get F [i; j] = perlin_value_2d st s0 s1 r0 r1 t0 t1 interp i j.
Proof.
  intros Hs0 Hs1 Hr0 Hr1 Hd0 Hd1.
  destruct (to_nat_exact Hr0 Hs0 Hd0) as (E0 & HD0 & HZ0).
  destruct (to_nat_exact Hr1 Hs1 Hd1) as (E1 & HD1 & HZ1).
  unfold generate_perlin_noise_2d, bind, lift.
  destruct (@sample_grid_2d_ok s0 s1 r0 r1 ss rs) as (grid & E & Hsg & Hgg);
    try lia.
  rewrite E; clear E.
  destruct (@gradient_lattice_2d_ok r0 r1 rs t0 t1 ts st) as (L & E & HsL & HgL);
    try lia.
  rewrite E; clear E.
  rewrite <- HZ0, <- HZ1.
  rewrite E0, E1 in Hsg.
  replace (Z.to_nat (r0 + 1)) with (S (Z.to_nat r0)) in HsL, HgL |- * by lia.
  replace (Z.to_nat (r1 + 1)) with (S (Z.to_nat r1)) in HsL, HgL |- * by lia.
  destruct (@blend_2d_ok _ _ _ _ grid L interp HD0 HD1 Hsg HsL)
    as (F & E & HsF & HgF).
  rewrite E; clear E.
  exists F. split; [reflexivity|]. rewrite E0, E1. split; [exact HsF|].
  intros i j Hi Hj. rewrite HgF by assumption.
  unfold perlin_value_2d, lattice_gradient_2d, unit_2d.
  destruct (Hgg i j) as [-> ->].
  replace (Z.to_nat (r0 + 1)) with (S (Z.to_nat r0)) by lia.
  replace (Z.to_nat (r1 + 1)) with (S (Z.to_nat r1)) by lia.
  assert (Hci : i / Z.to_nat (s0 / r0) < Z.to_nat r0)
    by (apply Nat.Div0.div_lt_upper_bound; lia).
  assert (Hcj : j / Z.to_nat (s1 / r1) < Z.to_nat r1)
    by (apply Nat.Div0.div_lt_upper_bound; lia).
  unfold perlin_sample_2d, bilinear, local_coord.
  rewrite !HgL by lia.
  reflexivity.
Qed.

(** ** The octave loop *)

Lemma octave_sum_shift (pers : R) (k : nat) (fs : list ndarray)
    (idx : list nat) :
  octave_sum pers (S k) fs idx = (pers * octave_sum pers k fs idx)%R.
Proof.
  revert k. induction fs as [|f fs IH]; intros k; simpl.
  - ring.
  - rewrite IH. simpl. ring.
Qed.

Lemma iadd_same (a b : ndarray) (s : list nat) :
  shape a = s -> shape b = s ->
  exists c,
    Np.iadd a b = Ok c /\ shape c = s
    /\ forall idx, in_bounds idx s -> get c idx = (get a idx + get b idx)%R.
Proof.
  intros Ha Hb. unfold Np.iadd.
  rewrite Ha, Hb, broadcast_shapes_same, list_eqb_refl.
  eexists. split; [reflexivity|]. split; [reflexivity|].
  intros idx Hidx. cbn [get]. now rewrite bidx_id.
Qed.

Section OctaveLoop.

Variable eval : Z -> M ndarray.
Variable body : octave_state -> M octave_state.
Variable pers : R.
Variable lac : Z.
Variable s : list nat.

Hypothesis body_spec :
  forall noise freq amp st,
    body (noise, freq, amp) st
    = (f <- eval freq ;;
       noise' <- lift (Np.iadd noise (Np.smul amp f)) ;;
       ret (noise', (freq * lac)%Z, (amp * pers)%R))%m st.

Lemma octave_loop_ok (n : nat) :
  forall (k : nat) (noise : ndarray) (amp : R) (st st' : rng)
         (fs : list ndarray),
    run_octaves eval lac n k st = (Ok fs, st') ->
    Forall (fun f => shape f = s) fs ->
    shape noise = s ->
    exists noise',
      for_range n body (noise, (lac ^ Z.of_nat k)%Z, amp) st
      = (Ok (noise', (lac ^ Z.of_nat (k + n))%Z, (amp * pers ^ n)%R), st')
      /\ shape noise' = s
      /\ forall idx, in_bounds idx s ->
           get noise' idx
           = (get noise idx + amp * octave_sum pers 0 fs idx)%R.
Proof.
  induction n as [|n IH]; intros k noise amp st st' fs Hrun Hall Hs.
  - simpl in Hrun. unfold ret in Hrun. injection Hrun as <- <-.
    exists noise. cbn [for_range ret].
    rewrite Nat.add_0_r. simpl. rewrite Rmult_1_r.
    split; [reflexivity|]. split; [assumption|].
    intros idx _. simpl. ring.
  - cbn [run_octaves] in Hrun. unfold bind in Hrun.
    destruct (eval (lac ^ Z.of_nat k)%Z st) as [[f|e] st1] eqn:Ef;
      [|discriminate].
    destruct (run_octaves eval lac n (S k) st1) as [[fs'|e] st2] eqn:Er;
      [|discriminate].
    unfold ret in Hrun. injection Hrun as <- <-.
    apply Forall_cons_iff in Hall as [Hf Hfs].
    destruct (@iadd_same noise (Np.smul amp f) s Hs Hf)
      as (noise1 & Ei & Hs1 & Hg1).
    destruct (IH (S k) noise1 (amp * pers)%R st1 st2 fs' Er Hfs Hs1)
      as (noise' & El & Hs' & Hg').
    exists noise'. cbn [for_range]. unfold bind at 1.
    rewrite body_spec. unfold bind, lift, ret. rewrite Ef, Ei.
    replace (lac ^ Z.of_nat k * lac)%Z with (lac ^ Z.of_nat (S k))%Z
      by (rewrite Nat2Z.inj_succ, Z.pow_succ_r by lia; ring).
    rewrite El.
    split.
    { replace (S k + n) with (k + S n) by lia.
      replace (amp * pers * pers ^ n)%R with (amp * pers ^ S n)%R
        by (simpl; ring).
      reflexivity. }
    split; [assumption|].
    intros idx Hidx. rewrite (Hg' idx Hidx), (Hg1 idx Hidx).
    cbn [octave_sum Np.smul Np.map get]. rewrite octave_sum_shift.
    simpl. ring.
Qed.

End OctaveLoop.

(** ** The 2D fractal combinator on a valid input *)

Lemma zeros_ok (sh : list Z) :
  nonneg sh = true ->
  Np.zeros sh = Ok (mk_nd (List.map Z.to_nat sh) (fun _ => 0%R)).
Proof. intros H. unfold Np.zeros. now rewrite H. Qed.




(** ** The sample grid and the gradient lattice in 3D *)

Lemma sample_grid_3d_ok (s0 s1 s2 r0 r1 r2 : Z) (ss rs : list Z) :
  (0 < s0)%Z -> (0 < s1)%Z -> (0 < s2)%Z ->
  r0 <> 0%Z -> r1 <> 0%Z -> r2 <> 0%Z ->
  exists grid,
    sample_grid_3d (s0 :: s1 :: s2 :: ss) (r0 :: r1 :: r2 :: rs)
    = Ok ((s0 / r0)%Z, (s1 / r1)%Z, (s2 / r2)%Z, grid)
    /\ shape grid = [Z.to_nat s0; Z.to_nat s1; Z.to_nat s2; 3]
    /\ forall i j k,
        get grid [i; j; k; 0] = local_coord r0 s0 i
        /\ get grid [i; j; k; 1] = local_coord r1 s1 j
        /\ get grid [i; j; k; 2] = local_coord r2 s2 k.
Proof.
  intros Hs0 Hs1 Hs2 Hr0 Hr1 Hr2.
  unfold sample_grid_3d, tuple_get, truediv, floordiv. cbn [nth_error rbind].
  replace (s0 =? 0)%Z with false by (symmetry; apply Z.eqb_neq; lia).
  replace (s1 =? 0)%Z with false by (symmetry; apply Z.eqb_neq; lia).
  replace (s2 =? 0)%Z with false by (symmetry; apply Z.eqb_neq; lia).
  replace (r0 =? 0)%Z with false by (symmetry; apply Z.eqb_neq; lia).
  replace (r1 =? 0)%Z with false by (symmetry; apply Z.eqb_neq; lia).
  replace (r2 =? 0)%Z with false by (symmetry; apply Z.eqb_neq; lia).
  cbn [rbind]. unfold Np.mgrid. cbn [existsb snd].
  destruct (Req_dec_T (IZR r0 / IZR s0) 0) as [E|_];
    [exfalso; revert E; apply delta_neq0; lia|].
  destruct (Req_dec_T (IZR r1 / IZR s1) 0) as [E|_];
    [exfalso; revert E; apply delta_neq0; lia|].
  destruct (Req_dec_T (IZR r2 / IZR s2) 0) as [E|_];
    [exfalso; revert E; apply delta_neq0; lia|].
  cbn [orb List.map].
  rewrite !mgrid_len_exact by lia.
  unfold nonneg. cbn [forallb].
  replace (0 <=? s0)%Z with true by (symmetry; apply Z.leb_le; lia).
  replace (0 <=? s1)%Z with true by (symmetry; apply Z.leb_le; lia).
  replace (0 <=? s2)%Z with true by (symmetry; apply Z.leb_le; lia).
  cbn.
  eexists. split; [reflexivity|]. split; [reflexivity|].
  intros i j k. cbn. repeat split; reflexivity.
Qed.

Lemma gradient_lattice_3d_ok (r0 r1 r2 : Z) (rs : list Z) (t0 t1 t2 : bool)
    (ts : list bool) (st : rng) :
  (0 <= r0)%Z -> (0 <= r1)%Z -> (0 <= r2)%Z ->
  let n0 := Z.to_nat (r0 + 1) in
  let n1 := Z.to_nat (r1 + 1) in
  let n2 := Z.to_nat (r2 + 1) in
  exists L,
    gradient_lattice_3d (r0 :: r1 :: r2 :: rs) (t0 :: t1 :: t2 :: ts) st
    = (Ok L, advance st (2 * (n0 * n1 * n2)))
    /\ shape L = [n0; n1; n2; 3]
    /\ forall i j k c, i < n0 -> j < n1 -> k < n2 -> c < 3 ->
         get L [i; j; k; c]
         = lattice_gradient_3d st n0 n1 n2 t0 t1 t2 i j k c.
Proof.
  intros H0 H1 H2 n0 n1 n2.
  assert (Hn0 : 0 < n0) by (unfold n0; lia).
  assert (Hn1 : 0 < n1) by (unfold n1; lia).
  assert (Hn2 : 0 < n2) by (unfold n2; lia).
  assert (Hnn : nonneg [(r0 + 1)%Z; (r1 + 1)%Z; (r2 + 1)%Z] = true).
  { unfold nonneg; cbn [forallb]; rewrite !andb_true_iff;
      repeat split; apply Z.leb_le; lia. }
  unfold gradient_lattice_3d, tuple_get, lift, bind, ret. cbn [nth_error].
  rewrite !rand_run by exact Hnn.
  cbn [List.map draws pos]. fold n0 n1 n2.
  set (u := mk_nd [n0; n1; n2]
              (fun idx => draws st (pos st + ravel [n0; n1; n2] idx))).
  set (v := mk_nd [n0; n1; n2]
              (fun idx => draws st (pos st + prod_list [n0; n1; n2]
                                    + ravel [n0; n1; n2] idx))).
  unfold Np.mul.
  destruct (@binop_yields Rmult (Np.map sin (Np.smul (2 * PI) v))
              (Np.map cos (Np.smul (2 * PI) u)) [n0; n1; n2]
              eq_refl eq_refl) as (gx & E & Hsx & Hgx).
  rewrite E; clear E.
  destruct (@binop_yields Rmult (Np.map sin (Np.smul (2 * PI) v))
              (Np.map sin (Np.smul (2 * PI) u)) [n0; n1; n2]
              eq_refl eq_refl) as (gy & E & Hsy & Hgy).
  rewrite E; clear E.
  destruct (@stack_yields 3 gx [gy; Np.map cos (Np.smul (2 * PI) v)]
              [n0; n1; n2]) as (g & E & Hsg & Hgg).
  { repeat constructor; assumption. } { simpl; lia. }
  rewrite E; clear E. cbn [insert_nth length] in Hsg.
  destruct (@tile_axis_ok 0 t0 g _ Hsg) as (g1 & E & Hs1 & Hg1);
    [simpl; lia | simpl; lia |]. rewrite E; clear E.
  destruct (@tile_axis_ok 1 t1 g1 _ Hs1) as (g2 & E & Hs2 & Hg2);
    [simpl; lia | simpl; lia |]. rewrite E; clear E.
  destruct (@tile_axis_ok 2 t2 g2 _ Hs2) as (g3 & E & Hs3 & Hg3);
    [simpl; lia | simpl; lia |]. rewrite E; clear E.
  exists g3. split.
  { unfold advance. f_equal. f_equal. cbn [prod_list fold_right]. lia. }
  split; [exact Hs3|].
  intros i j k c Hi Hj Hk Hc. cbn [nth] in Hg1, Hg2, Hg3.
  pose proof (@seam_lt t0 n0 i Hi). pose proof (@seam_lt t1 n1 j Hj).
  pose proof (@seam_lt t2 n2 k Hk).
  rewrite Hg3 by bounds. cbn [nth set_nth].
  rewrite Hg2 by bounds. cbn [nth set_nth].
  rewrite Hg1 by bounds. cbn [nth set_nth].
  rewrite Hgg. cbn [nth remove_nth].
  unfold lattice_gradient_3d, unit_3d.
  destruct c as [|[|[|c]]]; [| | |lia]; cbn [nth];
    rewrite ?Hgx, ?Hgy, ?bidx_id by bounds;
    cbn [Np.map Np.smul get u v shape];
    unfold ravel, angle_at; cbn [combine fold_left fst snd prod_list fold_right].
  all: repeat match goal with
       | |- @eq R (draws _ _) (draws _ _) => apply f_equal; lia
       | |- @eq R _ _ => f_equal
       end.
Qed.

(** ** The ramps and their blend in 3D *)

Lemma fold_sum3 (a b c : R) : fold_left Rplus [a; b; c] 0%R = (a + b + c)%R.
Proof. simpl. ring. Qed.

Lemma ramp_3d_yields (x y z g : ndarray) (s0 s1 s2 : nat) :
  shape x = [s0; s1; s2] -> shape y = [s0; s1; s2] ->
  shape z = [s0; s1; s2] -> shape g = [s0; s1; s2; 3] ->
  exists n,
    ramp_3d x y z g = Ok n /\ shape n = [s0; s1; s2]
    /\ forall i j k, i < s0 -> j < s1 -> k < s2 ->
         get n [i; j; k]
         = (get x [i; j; k] * get g [i; j; k; 0%nat]
            + get y [i; j; k] * get g [i; j; k; 1%nat]
            + get z [i; j; k] * get g [i; j; k; 2%nat])%R.
Proof.
  intros Hx Hy Hz Hg. unfold ramp_3d, Np.mul.
  step (@stack_yields 3 x [y; z] [s0; s1; s2]
          ltac:(repeat constructor; assumption) ltac:(simpl; lia)).
  cbn [insert_nth length] in Hsa.
  step (@binop_yields Rmult a g _ Hsa Hg).
  destruct (@sum_yields 3 a0 _ Hsa0 ltac:(simpl; lia)) as (n & E & Hsn & Hgn).
  exists n. split; [exact E|]. split; [exact Hsn|].
  intros i j k Hi Hj Hk. rewrite Hgn. cbn [nth seq List.map insert_nth].
  rewrite fold_sum3, !Hga0, !bidx_id by bounds. rewrite !Hga.
  reflexivity.
Qed.

Lemma blend_3d_ok (R0 R1 R2 D0 D1 D2 : nat) (grid L : ndarray)
    (interp : R -> R) :
  0 < D0 -> 0 < D1 -> 0 < D2 ->
  shape grid = [R0 * D0; R1 * D1; R2 * D2; 3] ->
  shape L = [S R0; S R1; S R2; 3] ->
  exists F,
    blend_3d (Z.of_nat D0) (Z.of_nat D1) (Z.of_nat D2) grid L interp = Ok F
    /\ shape F = [R0 * D0; R1 * D1; R2 * D2]
    /\ forall i j k, i < R0 * D0 -> j < R1 * D1 -> k < R2 * D2 ->
         get F [i; j; k]
         = trilinear interp (get grid [i; j; k; 0]) (get grid [i; j; k; 1])
             (get grid [i; j; k; 2])
             (fun a b c comp =>
                get L [i / D0 + a; j / D1 + b; k / D2 + c; comp]).
Proof.
  intros HD0 HD1 HD2 Hgrid HL. unfold blend_3d.
  step (@repeat_yields (Z.of_nat D0) 0 L _ HL ltac:(simpl; lia) ltac:(lia))
    as rep0.
  cbn [set_nth nth] in Hsrep0. rewrite Nat2Z.id in Hsrep0, Hgrep0.
  step (@repeat_yields (Z.of_nat D1) 1 rep0 _ Hsrep0 ltac:(simpl; lia)
          ltac:(lia)) as rep1.
  cbn [set_nth nth] in Hsrep1. rewrite Nat2Z.id in Hsrep1, Hgrep1.
  step (@repeat_yields (Z.of_nat D2) 2 rep1 _ Hsrep1 ltac:(simpl; lia)
          ltac:(lia)) as rep.
  cbn [set_nth nth] in Hsrep. rewrite Nat2Z.id in Hsrep, Hgrep.
  step (@slice_yields
          [(None, Some (- Z.of_nat D0)%Z);
           (None, Some (- Z.of_nat D1)%Z);
           (None, Some (- Z.of_nat D2)%Z)]
          rep _ Hsrep ltac:(simpl; lia)) as g000.
  step (@slice_yields
          [(Some (Z.of_nat D0), None);
           (None, Some (- Z.of_nat D1)%Z);
           (None, Some (- Z.of_nat D2)%Z)]
          rep _ Hsrep ltac:(simpl; lia)) as g100.
  step (@slice_yields
          [(None, Some (- Z.of_nat D0)%Z);
           (Some (Z.of_nat D1), None);
           (None, Some (- Z.of_nat D2)%Z)]
          rep _ Hsrep ltac:(simpl; lia)) as g010.
  step (@slice_yields
          [(Some (Z.of_nat D0), None);
           (Some (Z.of_nat D1), None);
           (None, Some (- Z.of_nat D2)%Z)]
          rep _ Hsrep ltac:(simpl; lia)) as g110.
  step (@slice_yields
          [(None, Some (- Z.of_nat D0)%Z);
           (None, Some (- Z.of_nat D1)%Z);
           (Some (Z.of_nat D2), None)]
          rep _ Hsrep ltac:(simpl; lia)) as g001.
  step (@slice_yields
          [(Some (Z.of_nat D0), None);
           (None, Some (- Z.of_nat D1)%Z);
           (Some (Z.of_nat D2), None)]
          rep _ Hsrep ltac:(simpl; lia)) as g101.
  step (@slice_yields
          [(None, Some (- Z.of_nat D0)%Z);
           (Some (Z.of_nat D1), None);
           (Some (Z.of_nat D2), None)]
          rep _ Hsrep ltac:(simpl; lia)) as g011.
  step (@slice_yields
          [(Some (Z.of_nat D0), None);
           (Some (Z.of_nat D1), None);
           (Some (Z.of_nat D2), None)]
          rep _ Hsrep ltac:(simpl; lia)) as g111.
  cbn [Np.slice_shape Np.slice_index] in *.
  rewrite !slice_bounds_lo, !slice_bounds_hi in * by lia.
  cbn [fst snd] in *. rewrite !Nat2Z.id in *.
  replace (S R0 * D0 - D0) with (R0 * D0) in * by lia.
  replace (S R1 * D1 - D1) with (R1 * D1) in * by lia.
  replace (S R2 * D2 - D2) with (R2 * D2) in * by lia.
  step (@getitem_int_yields 3 0 grid _ Hgrid ltac:(simpl; lia)
          ltac:(simpl; lia)) as x.
  step (@getitem_int_yields 3 1 grid _ Hgrid ltac:(simpl; lia)
          ltac:(simpl; lia)) as y.
  step (@getitem_int_yields 3 2 grid _ Hgrid ltac:(simpl; lia)
          ltac:(simpl; lia)) as z.
  cbn [remove_nth] in Hsx, Hsy, Hsz.
  step (@ramp_3d_yields x y z g000 _ _ _ Hsx Hsy Hsz Hsg000) as n000.
  step (@ramp_3d_yields (Np.subs x 1) y z g100 _ _ _ Hsx Hsy Hsz Hsg100) as n100.
  step (@ramp_3d_yields x (Np.subs y 1) z g010 _ _ _ Hsx Hsy Hsz Hsg010) as n010.
  step (@ramp_3d_yields (Np.subs x 1) (Np.subs y 1) z g110 _ _ _ Hsx Hsy Hsz
          Hsg110) as n110.
  step (@ramp_3d_yields x y (Np.subs z 1) g001 _ _ _ Hsx Hsy Hsz Hsg001) as n001.
  step (@ramp_3d_yields (Np.subs x 1) y (Np.subs z 1) g101 _ _ _ Hsx Hsy Hsz
          Hsg101) as n101.
  step (@ramp_3d_yields x (Np.subs y 1) (Np.subs z 1) g011 _ _ _ Hsx Hsy Hsz
          Hsg011) as n011.
  step (@ramp_3d_yields (Np.subs x 1) (Np.subs y 1) (Np.subs z 1) g111
          _ _ _ Hsx Hsy Hsz Hsg111) as n111.
  assert (Hst : shape (Np.map interp grid) = [R0 * D0; R1 * D1; R2 * D2; 3])
    by exact Hgrid.
  step (@getitem_int_yields 3 0 (Np.map interp grid) _ Hst ltac:(simpl; lia)
          ltac:(simpl; lia)) as t0.
  step (@getitem_int_yields 3 1 (Np.map interp grid) _ Hst ltac:(simpl; lia)
          ltac:(simpl; lia)) as t1.
  step (@getitem_int_yields 3 2 (Np.map interp grid) _ Hst ltac:(simpl; lia)
          ltac:(simpl; lia)) as t2.
  cbn [remove_nth] in Hst0, Hst1, Hst2.
  step (@mix_r_yields n000 t0 n100 _ Hsn000 Hst0 Hsn100) as n00.
  step (@mix_r_yields n010 t0 n110 _ Hsn010 Hst0 Hsn110) as n10.
  step (@mix_r_yields n001 t0 n101 _ Hsn001 Hst0 Hsn101) as n01.
  step (@mix_r_yields n011 t0 n111 _ Hsn011 Hst0 Hsn111) as n11.
  step (@mix_l_yields t1 n00 n10 _ Hst1 Hsn00 Hsn10) as n0.
  step (@mix_l_yields t1 n01 n11 _ Hst1 Hsn01 Hsn11) as n1.
  destruct (@mix_l_yields t2 n0 n1 _ Hst2 Hsn0 Hsn1) as (F & E & HsF & HgF).
  exists F. split; [exact E|]. split; [exact HsF|].
  intros i j k Hi Hj Hk.
  assert (Hb : in_bounds [i; j; k] [R0 * D0; R1 * D1; R2 * D2]) by bounds.
  rewrite (HgF _ Hb), (Hgn0 _ Hb), (Hgn1 _ Hb).
  rewrite (Hgn00 _ Hb), (Hgn10 _ Hb), (Hgn01 _ Hb), (Hgn11 _ Hb).
  rewrite Hgn000, Hgn100, Hgn010, Hgn110, Hgn001, Hgn101, Hgn011, Hgn111
    by assumption.
  change (Z.to_nat 0) with 0 in *. change (Z.to_nat 1) with 1 in *.
  change (Z.to_nat 2) with 2 in *.
  cbn [Np.subs Np.map get].
  rewrite !Hgt0, !Hgt1, !Hgt2, !Hgx, !Hgy, !Hgz.
  rewrite !Hgg000, !Hgg100, !Hgg010, !Hgg110, !Hgg001, !Hgg101, !Hgg011,
    !Hgg111.
  rewrite !Hgrep. cbn [nth set_nth]. rewrite !Hgrep1. cbn [nth set_nth].
  rewrite !Hgrep0.
  cbn [nth set_nth insert_nth Nat.add Np.map get].
  rewrite !div_add_one by assumption.
  unfold trilinear. cbn [INR].
  rewrite !Nat.add_0_r, !Rminus_0_r.
  reflexivity.
Qed.

(** ** The 3D evaluator and fractal combinator on a valid input *)

Lemma perlin_3d_ok (s0 s1 s2 r0 r1 r2 : Z) (ss rs : list Z)
    (t0 t1 t2 : bool) (ts : list bool) (interp : R -> R) (st : rng) :
  (0 < s0)%Z -> (0 < s1)%Z -> (0 < s2)%Z ->
  (0 < r0)%Z -> (0 < r1)%Z -> (0 < r2)%Z ->
  (r0 | s0)%Z -> (r1 | s1)%Z -> (r2 | s2)%Z ->
  exists F,
    generate_perlin_noise_3d (s0 :: s1 :: s2 :: ss) (r0 :: r1 :: r2 :: rs)
      (t0 :: t1 :: t2 :: ts) interp st
    = (Ok F,
       advance st (2 * (Z.to_nat (r0 + 1) * Z.to_nat (r1 + 1)
                        * Z.to_nat (r2 + 1))))
    /\ shape F = [Z.to_nat s0; Z.to_nat s1; Z.to_nat s2]
    /\ forall i j k,
         i < Z.to_nat s0 -> j < Z.to_nat s1 -> k < Z.to_nat s2 ->
         get F [i; j; k]
         = perlin_value_3d st s0 s1 s2 r0 r1 r2 t0 t1 t2 interp i j k.
Proof.
  intros Hs0 Hs1 Hs2 Hr0 Hr1 Hr2 Hd0 Hd1 Hd2.
  destruct (to_nat_exact Hr0 Hs0 Hd0) as (E0 & HD0 & HZ0).
  destruct (to_nat_exact Hr1 Hs1 Hd1) as (E1 & HD1 & HZ1).
  destruct (to_nat_exact Hr2 Hs2 Hd2) as (E2 & HD2 & HZ2).
  unfold generate_perlin_noise_3d, bind, lift.
  destruct (@sample_grid_3d_ok s0 s1 s2 r0 r1 r2 ss rs)
    as (grid & E & Hsg & Hgg); try lia.
  rewrite E; clear E.
  destruct (@gradient_lattice_3d_ok r0 r1 r2 rs t0 t1 t2 ts st)
    as (L & E & HsL & HgL); try lia.
  rewrite E; clear E.
  rewrite <- HZ0, <- HZ1, <- HZ2.
  rewrite E0, E1, E2 in Hsg.
  assert (A0 : Z.to_nat (r0 + 1) = S (Z.to_nat r0)) by lia.
  assert (A1 : Z.to_nat (r1 + 1) = S (Z.to_nat r1)) by lia.
  assert (A2 : Z.to_nat (r2 + 1) = S (Z.to_nat r2)) by lia.
  rewrite A0, A1, A2 in HsL.
  destruct (@blend_3d_ok _ _ _ _ _ _ grid L interp HD0 HD1 HD2 Hsg HsL)
    as (F & E & HsF & HgF).
  rewrite E; clear E.
  exists F. split; [reflexivity|]. rewrite E0, E1, E2. split; [exact HsF|].
  intros i j k Hi Hj Hk. rewrite HgF by assumption.
  unfold perlin_value_3d.
  destruct (Hgg i j k) as (-> & -> & ->).
  assert (Hci : i / Z.to_nat (s0 / r0) < Z.to_nat r0)
    by (apply Nat.Div0.div_lt_upper_bound; lia).
  assert (Hcj : j / Z.to_nat (s1 / r1) < Z.to_nat r1)
    by (apply Nat.Div0.div_lt_upper_bound; lia).
  assert (Hck : k / Z.to_nat (s2 / r2) < Z.to_nat r2)
    by (apply Nat.Div0.div_lt_upper_bound; lia).
  unfold trilinear.
  rewrite !HgL by lia.
  reflexivity.
Qed.



(** ** The evaluators up to the elements of their arrays *)

(** The evaluator after its grid and its lattice are built. *)
Lemma perlin_2d_blend (s0 s1 r0 r1 : Z) (t0 t1 : bool) (interp : R -> R)
    (st : rng) :
  (0 < s0)%Z -> (0 < s1)%Z -> (0 < r0)%Z -> (0 < r1)%Z ->
  exists grid L,
    shape grid = [Z.to_nat s0; Z.to_nat s1; 2]
    /\ shape L = [Z.to_nat (r0 + 1); Z.to_nat (r1 + 1); 2]
    /\ generate_perlin_noise_2d [s0; s1] [r0; r1] [t0; t1] interp st
       = (blend_2d (s0 / r0) (s1 / r1) grid L interp,
          advance st (Z.to_nat (r0 + 1) * Z.to_nat (r1 + 1))).
Proof.
  intros Hs0 Hs1 Hr0 Hr1.
  destruct (@sample_grid_2d_ok s0 s1 r0 r1 [] []) as (grid & E & Hsg & _);
    try lia.
  destruct (@gradient_lattice_2d_ok r0 r1 [] t0 t1 [] st)
    as (L & EL & HsL & _); try lia.
  exists grid, L. split; [exact Hsg|]. split; [exact HsL|].
  unfold generate_perlin_noise_2d, bind, lift. rewrite E, EL. reflexivity.
Qed.

Lemma perlin_3d_blend (s0 s1 s2 r0 r1 r2 : Z) (t0 t1 t2 : bool)
    (interp : R -> R) (st : rng) :
  (0 < s0)%Z -> (0 < s1)%Z -> (0 < s2)%Z ->
  (0 < r0)%Z -> (0 < r1)%Z -> (0 < r2)%Z ->
  exists grid L,
    shape grid = [Z.to_nat s0; Z.to_nat s1; Z.to_nat s2; 3]
    /\ shape L = [Z.to_nat (r0 + 1); Z.to_nat (r1 + 1); Z.to_nat (r2 + 1); 3]
    /\ generate_perlin_noise_3d [s0; s1; s2] [r0; r1; r2] [t0; t1; t2]
         interp st
       = (blend_3d (s0 / r0) (s1 / r1) (s2 / r2) grid L interp,
          advance st (2 * (Z.to_nat (r0 + 1) * Z.to_nat (r1 + 1)
                           * Z.to_nat (r2 + 1)))).
Proof.
  intros Hs0 Hs1 Hs2 Hr0 Hr1 Hr2.
  destruct (@sample_grid_3d_ok s0 s1 s2 r0 r1 r2 [] [])
    as (grid & E & Hsg & _); try lia.
  destruct (@gradient_lattice_3d_ok r0 r1 r2 [] t0 t1 t2 [] st)
    as (L & EL & HsL & _); try lia.
  exists grid, L. split; [exact Hsg|]. split; [exact HsL|].
  unfold generate_perlin_noise_3d, bind, lift. rewrite E, EL. reflexivity.
Qed.

Lemma outcome_ok (r : result ndarray) (s : list nat) :
  outcome r = Ok s -> exists g, r = Ok (mk_nd s g).
Proof.
  destruct r as [[s' g]|e]; simpl; intros H; [|discriminate].
  injection H as ->. now exists g.
Qed.

Lemma rbind_outcome_ok {B : Type} (r : result ndarray) (k : ndarray -> result B)
    (s : list nat) :
  outcome r = Ok s -> exists g, rbind r k = k (mk_nd s g).
Proof.
  intros H. destruct (outcome_ok _ H) as [g ->]. now exists g.
Qed.

Lemma rbind_outcome_raise {B : Type} (r : result ndarray)
    (k : ndarray -> result B) (e : exn) :
  outcome r = Raise e -> rbind r k = Raise e.
Proof.
  destruct r as [a|e']; simpl; intros H; [discriminate|].
  now injection H as ->.
Qed.

Lemma outcome_raise (r : result ndarray) (e : exn) :
  outcome r = Raise e -> r = Raise e.
Proof.
  destruct r as [a|e']; simpl; intros H; [discriminate|].
  now injection H as ->.
Qed.

(** Running the first operation of a [result] computation on arrays of
    known shapes: the shape of the array it returns is computed, and
    its elements are left abstract. *)
Ltac eval_head :=
  match goal with
  | |- context [rbind ?op ?k] =>
      lazymatch op with
      | rbind _ _ => fail
      | _ =>
          let r := eval vm_compute in (outcome op) in
          lazymatch r with
          | Ok ?s =>
              let g := fresh "g" in
              let E := fresh "E" in
              destruct (@rbind_outcome_ok _ op k s eq_refl) as [g E];
              rewrite E; clear E; cbv beta
          | Raise ?e =>
              rewrite (@rbind_outcome_raise _ op k e eq_refl)
          end
      end
  end.


(** ** What a call that returns a field was given *)




















(** ** No octave *)

Lemma Forall_nonneg (sh : list Z) :
  Forall (fun z => (0 <= z)%Z) sh -> nonneg sh = true.
Proof.
  intros H. unfold nonneg. apply forallb_forall. intros z Hz.
  rewrite Forall_forall in H. apply Z.leb_le. now apply H.
Qed.

Lemma no_octave (sh res : list Z) (persistence : R) (lacunarity : Z)
    (tileable : list bool) (interp : R -> R) (st : rng) :
  Forall (fun z => (0 <= z)%Z) sh ->
  generate_fractal_noise_2d sh res 0 persistence lacunarity tileable
    interp st = (Ok (mk_nd (List.map Z.to_nat sh) (fun _ => 0%R)), st)
  /\ generate_fractal_noise_3d sh res 0 persistence lacunarity tileable
       interp st = (Ok (mk_nd (List.map Z.to_nat sh) (fun _ => 0%R)), st).
Proof.
  intros Hsh.
  unfold generate_fractal_noise_2d, generate_fractal_noise_3d, bind, lift.
  rewrite zeros_ok by now apply Forall_nonneg.
  split; reflexivity.
Qed.

(** ** A shape that is not a multiple of res, in general (2D) *)

Lemma rbind_raise {A B : Type} (c : result A) (k : A -> result B) (e : exn) :
  c = Raise e -> rbind c k = Raise e.
Proof. now intros ->. Qed.

Lemma binop_mismatch (f : R -> R -> R) (a b : ndarray) :
  broadcast_shapes (shape a) (shape b) = None ->
  Np.binop f a b = Raise ValueError.
Proof. intros H. unfold Np.binop. now rewrite H. Qed.

(** Two shapes that differ on an axis where neither has length 1 do not
    broadcast. *)
Lemma broadcast_mismatch_2d (a0 a1 b0 b1 : nat) :
  (a0 <> b0 /\ a0 <> 1 /\ b0 <> 1) \/ (a1 <> b1 /\ a1 <> 1 /\ b1 <> 1) ->
  broadcast_shapes [a0; a1; 2] [b0; b1; 2] = None.
Proof.
  intros H. unfold broadcast_shapes. cbn [rev app bshape_rev].
  destruct (Nat.eqb_spec a0 b0), (Nat.eqb_spec a0 1), (Nat.eqb_spec b0 1),
    (Nat.eqb_spec a1 b1), (Nat.eqb_spec a1 1), (Nat.eqb_spec b1 1);
    try reflexivity; exfalso; lia.
Qed.

(** The repeated gradients cover [res[i] * (shape[i] // res[i])]
    samples on axis [i], whatever the divisibility. *)
Lemma slice_bounds_lo_repeated (k d : nat) :
  Np.slice_bounds (S k * d) (None, Some (- Z.of_nat d)%Z) = (0, k * d).
Proof.
  replace (S k * d) with (k * d + d) by lia.
  assert (Hm : d = 0 -> k * d = 0) by (intros ->; lia).
  revert Hm. generalize (k * d). intros m Hm.
  unfold Np.slice_bounds. cbn [fst snd].
  destruct (Z.ltb_spec (- Z.of_nat d) 0); f_equal; lia.
Qed.

Lemma slice_bounds_hi_repeated (k d : nat) :
  Np.slice_bounds (S k * d) (Some (Z.of_nat d), None) = (d, k * d).
Proof.
  replace (S k * d) with (k * d + d) by lia.
  generalize (k * d). intros m.
  unfold Np.slice_bounds. cbn [fst snd].
  destruct (Z.ltb_spec (Z.of_nat d) 0); f_equal; lia.
Qed.

Lemma blend_2d_mismatch (R0 R1 D0 D1 S0 S1 : nat) (grid L : ndarray)
    (interp : R -> R) :
  shape grid = [S0; S1; 2] ->
  shape L = [S R0; S R1; 2] ->
  (S0 <> R0 * D0 /\ S0 <> 1 /\ R0 * D0 <> 1)
  \/ (S1 <> R1 * D1 /\ S1 <> 1 /\ R1 * D1 <> 1) ->
  blend_2d (Z.of_nat D0) (Z.of_nat D1) grid L interp = Raise ValueError.
Proof.
  intros Hgrid HL Hbad. unfold blend_2d.
  step (@repeat_yields (Z.of_nat D0) 0 L _ HL ltac:(simpl; lia) ltac:(lia))
    as rep0.
  cbn [set_nth nth] in Hsrep0. rewrite Nat2Z.id in Hsrep0.
  step (@repeat_yields (Z.of_nat D1) 1 rep0 _ Hsrep0 ltac:(simpl; lia)
          ltac:(lia)) as rep.
  cbn [set_nth nth] in Hsrep. rewrite Nat2Z.id in Hsrep.
  step (@slice_yields
          [(None, Some (- Z.of_nat D0)%Z); (None, Some (- Z.of_nat D1)%Z)]
          rep _ Hsrep ltac:(simpl; lia)) as g00.
  step (@slice_yields
          [(Some (Z.of_nat D0), None); (None, Some (- Z.of_nat D1)%Z)]
          rep _ Hsrep ltac:(simpl; lia)) as g10.
  step (@slice_yields
          [(None, Some (- Z.of_nat D0)%Z); (Some (Z.of_nat D1), None)]
          rep _ Hsrep ltac:(simpl; lia)) as g01.
  step (@slice_yields
          [(Some (Z.of_nat D0), None); (Some (Z.of_nat D1), None)]
          rep _ Hsrep ltac:(simpl; lia)) as g11.
  cbn [Np.slice_shape] in Hsg00.
  rewrite !slice_bounds_lo_repeated in Hsg00. cbn [snd] in Hsg00.
  step (@getitem_int_yields 2 0 grid _ Hgrid ltac:(simpl; lia)
          ltac:(simpl; lia)) as x.
  step (@getitem_int_yields 2 1 grid _ Hgrid ltac:(simpl; lia)
          ltac:(simpl; lia)) as y.
  cbn [remove_nth] in Hsx, Hsy.
  apply rbind_raise. unfold ramp_2d, Np.dstack.
  step (@stack_yields 2 x [y] [S0; S1]
          ltac:(repeat constructor; assumption) ltac:(simpl; lia)) as v.
  cbn [insert_nth length] in Hsv.
  apply rbind_raise. apply binop_mismatch.
  rewrite Hsv, Hsg00. now apply broadcast_mismatch_2d.
Qed.

(** On a positive shape and res, the 2D evaluator raises [ValueError]
    as soon as an axis of two samples or more is not a multiple of its
    res: the silent case is an axis of one sample. *)
Lemma not_multiple_raises_2d (s0 s1 r0 r1 : Z) (t0 t1 : bool)
    (interp : R -> R) (st : rng) :
  (0 < s0)%Z -> (0 < s1)%Z -> (0 < r0)%Z -> (0 < r1)%Z ->
  (~ (r0 | s0)%Z /\ s0 <> 1%Z) \/ (~ (r1 | s1)%Z /\ s1 <> 1%Z) ->
  exists st',
    generate_perlin_noise_2d [s0; s1] [r0; r1] [t0; t1] interp st
    = (Raise ValueError, st').
Proof.
  intros Hs0 Hs1 Hr0 Hr1 Hbad.
  destruct (@perlin_2d_blend s0 s1 r0 r1 t0 t1 interp st)
    as (grid & L & Hsg & HsL & E); try assumption.
  rewrite E. eexists. f_equal.
  assert (Hq0 : (0 <= s0 / r0)%Z) by (apply Z.div_pos; lia).
  assert (Hq1 : (0 <= s1 / r1)%Z) by (apply Z.div_pos; lia).
  rewrite <- (Z2Nat.id (s0 / r0)), <- (Z2Nat.id (s1 / r1)) by assumption.
  replace (Z.to_nat (r0 + 1)) with (S (Z.to_nat r0)) in HsL by lia.
  replace (Z.to_nat (r1 + 1)) with (S (Z.to_nat r1)) in HsL by lia.
  apply blend_2d_mismatch
    with (R0 := Z.to_nat r0) (R1 := Z.to_nat r1)
         (S0 := Z.to_nat s0) (S1 := Z.to_nat s1); try assumption.
  assert (M : forall s r : Z,
             (0 < s)%Z -> (0 < r)%Z -> ~ (r | s)%Z -> s <> 1%Z ->
             Z.to_nat s <> Z.to_nat r * Z.to_nat (s / r)
             /\ Z.to_nat s <> 1
             /\ Z.to_nat r * Z.to_nat (s / r) <> 1).
  { intros s r Hs Hr Hnd Hn1.
    assert (Hq : (0 <= s / r)%Z) by (apply Z.div_pos; lia).
    rewrite <- Z2Nat.inj_mul by lia.
    assert (Hne : (r * (s / r) <> s)%Z).
    { intros Heq. apply Hnd. exists (s / r)%Z. lia. }
    split; [|split].
    - intros Heq. apply Z2Nat.inj in Heq; nia.
    - lia.
    - intros Heq.
      assert (H1 : (r * (s / r) = 1)%Z) by nia.
      assert (r = 1)%Z
        by (apply (Z.eq_mul_1_nonneg r (s / r)); [lia | exact H1]).
      subst r.
      apply Hnd. exists s. lia. }
  destruct Hbad as [[Hnd Hn1]|[Hnd Hn1]]; [left | right]; now apply M.
Qed.

(** * The claims of the specification *)

(** ** C1: the fractal combinator is the weighted sum of its octaves *)



(** ** C2: one octave is the single-octave evaluator *)

Lemma one_octave_2d (s0 s1 r0 r1 lacunarity : Z) (persistence : R)
    (t0 t1 : bool) (interp : R -> R) (st : rng) :
  (0 < s0)%Z -> (0 < s1)%Z -> (0 < r0)%Z -> (0 < r1)%Z ->
  (r0 | s0)%Z -> (r1 | s1)%Z ->
  exists f F st',
    generate_perlin_noise_2d [s0; s1] [r0; r1] [t0; t1] interp st
    = (Ok f, st')
    /\ generate_fractal_noise_2d [s0; s1] [r0; r1] 1 persistence lacunarity
         [t0; t1] interp st = (Ok F, st')
    /\ same_array F f.
Proof.
  intros Hs0 Hs1 Hr0 Hr1 Hd0 Hd1.
  destruct (@perlin_2d_ok s0 s1 r0 r1 [] [] t0 t1 [] interp st)
    as (f & Ef & Hsf & _); try assumption.
  set (s := [Z.to_nat s0; Z.to_nat s1]) in *.
  destruct (@octave_loop_ok
              (evaluator_2d [s0; s1] r0 r1 [t0; t1] interp)
              (octave_2d [s0; s1] [r0; r1] persistence lacunarity [t0; t1]
                 interp)
              persistence lacunarity s)
    with (n := 1) (k := 0) (noise := mk_nd s (fun _ => 0%R))
         (amp := 1%R) (st := st) (fs := [f])
         (st' := advance st (Z.to_nat (r0 + 1) * Z.to_nat (r1 + 1)))
    as (F & El & HsF & HgF); try reflexivity.
  { cbn [run_octaves]. unfold bind, evaluator_2d.
    change (lacunarity ^ Z.of_nat 0)%Z with 1%Z.
    rewrite !Z.mul_1_l, Ef. reflexivity. }
  { now constructor. }
  exists f, F, (advance st (Z.to_nat (r0 + 1) * Z.to_nat (r1 + 1))).
  split; [exact Ef|]. split.
  - unfold generate_fractal_noise_2d, bind at 1, lift at 1.
    rewrite zeros_ok
      by (unfold nonneg; cbn [forallb]; rewrite !andb_true_iff;
          repeat split; apply Z.leb_le; lia).
    unfold bind at 1. change (Z.to_nat 1) with 1.
    change (lacunarity ^ Z.of_nat 0)%Z with 1%Z in El.
    cbn [List.map]. fold s. rewrite El. reflexivity.
  - split; [now rewrite HsF, Hsf|].
    intros idx Hidx. rewrite HsF in Hidx. rewrite (HgF idx Hidx).
    cbn [octave_sum get]. simpl. ring.
Qed.

Lemma one_octave_3d (s0 s1 s2 r0 r1 r2 lacunarity : Z) (persistence : R)
    (t0 t1 t2 : bool) (interp : R -> R) (st : rng) :
  (0 < s0)%Z -> (0 < s1)%Z -> (0 < s2)%Z ->
  (0 < r0)%Z -> (0 < r1)%Z -> (0 < r2)%Z ->
  (r0 | s0)%Z -> (r1 | s1)%Z -> (r2 | s2)%Z ->
  exists f F st',
    generate_perlin_noise_3d [s0; s1; s2] [r0; r1; r2] [t0; t1; t2] interp st
    = (Ok f, st')
    /\ generate_fractal_noise_3d [s0; s1; s2] [r0; r1; r2] 1 persistence
         lacunarity [t0; t1; t2] interp st = (Ok F, st')
    /\ same_array F f.
Proof.
  intros Hs0 Hs1 Hs2 Hr0 Hr1 Hr2 Hd0 Hd1 Hd2.
  destruct (@perlin_3d_ok s0 s1 s2 r0 r1 r2 [] [] t0 t1 t2 [] interp st)
    as (f & Ef & Hsf & _); try assumption.
  set (s := [Z.to_nat s0; Z.to_nat s1; Z.to_nat s2]) in *.
  set (st1 := advance st _) in *.
  destruct (@octave_loop_ok
              (evaluator_3d [s0; s1; s2] r0 r1 r2 [t0; t1; t2] interp)
              (octave_3d [s0; s1; s2] [r0; r1; r2] persistence lacunarity
                 [t0; t1; t2] interp)
              persistence lacunarity s)
    with (n := 1) (k := 0) (noise := mk_nd s (fun _ => 0%R))
         (amp := 1%R) (st := st) (fs := [f]) (st' := st1)
    as (F & El & HsF & HgF); try reflexivity.
  { cbn [run_octaves]. unfold bind, evaluator_3d.
    change (lacunarity ^ Z.of_nat 0)%Z with 1%Z.
    rewrite !Z.mul_1_l, Ef. reflexivity. }
  { now constructor. }
  exists f, F, st1.
  split; [exact Ef|]. split.
  - unfold generate_fractal_noise_3d, bind at 1, lift at 1.
    rewrite zeros_ok
      by (unfold nonneg; cbn [forallb]; rewrite !andb_true_iff;
          repeat split; apply Z.leb_le; lia).
    unfold bind at 1. change (Z.to_nat 1) with 1.
    change (lacunarity ^ Z.of_nat 0)%Z with 1%Z in El.
    cbn [List.map]. fold s. rewrite El. reflexivity.
  - split; [now rewrite HsF, Hsf|].
    intros idx Hidx. rewrite HsF in Hidx. rewrite (HgF idx Hidx).
    cbn [octave_sum get]. simpl. ring.
Qed.



(** ** C10: no octave *)

(** C10.  With [octaves = 0] the fractal combinators raise nothing and
    return the array of the given shape whose every element is 0, and
    leave the generator where it was: no draw is consumed.  This holds
    for every [shape] of non-negative entries, of any number of
    entries, and every value of the other parameters. *)
Theorem fractal_zero_octaves :
  forall (sh res : list Z) (persistence : R) (lacunarity : Z)
         (tileable : list bool) (interp : R -> R) (st : rng),
    Forall (fun z => (0 <= z)%Z) sh ->
    let zero_field := mk_nd (List.map Z.to_nat sh) (fun _ => 0%R) in
    generate_fractal_noise_2d sh res 0 persistence lacunarity tileable
      interp st = (Ok zero_field, st)
    /\ generate_fractal_noise_3d sh res 0 persistence lacunarity tileable
         interp st = (Ok zero_field, st).
Proof.
  intros sh res persistence lacunarity tileable interp st Hsh zero_field.
  now apply no_octave.
Qed.

Lemma fractal_zero_octaves_witness :
  Forall (fun z => (0 <= z)%Z) [4; 6]%Z
  /\ generate_fractal_noise_2d [4; 6]%Z [3; 3]%Z 0 (1 / 2) 2 [false; false]
       interpolant (constant_rng (1 / 4))
     = (Ok (mk_nd [4; 6] (fun _ => 0%R)), constant_rng (1 / 4))
  /\ Forall (fun z => (0 <= z)%Z) [4; 6; 2]%Z
  /\ generate_fractal_noise_3d [4; 6; 2]%Z [3; 3; 3]%Z 0 (1 / 2) 2
       [false; false; false] interpolant (constant_rng (1 / 4))
     = (Ok (mk_nd [4; 6; 2] (fun _ => 0%R)), constant_rng (1 / 4)).
Proof.
  assert (H2 : Forall (fun z => (0 <= z)%Z) [4; 6]%Z)
    by (repeat constructor; lia).
  assert (H3 : Forall (fun z => (0 <= z)%Z) [4; 6; 2]%Z)
    by (repeat constructor; lia).
  split; [exact H2|]. split.
  - exact (proj1 (@fractal_zero_octaves [4; 6]%Z [3; 3]%Z (1 / 2) 2
                    [false; false] interpolant (constant_rng (1 / 4)) H2)).
  - split; [exact H3|].
    exact (proj2 (@fractal_zero_octaves [4; 6; 2]%Z [3; 3; 3]%Z (1 / 2) 2
                    [false; false; false] interpolant
                    (constant_rng (1 / 4)) H3)).
Defined.

(** ** C3: the samples at lattice corners *)

Lemma frac_part_INR (i : nat) : frac_part (INR i) = 0%R.
Proof.
  unfold frac_part. rewrite Int_part_INR, <- INR_IZR_INZ. ring.
Qed.

(** With one sample in each cell every sample sits on a lattice corner:
    its local coordinate is 0. *)
Lemma local_coord_same (s : Z) (i : nat) :
  s <> 0%Z -> local_coord s s i = 0%R.
Proof.
  intros Hs. unfold local_coord.
  replace (INR i * (IZR s / IZR s) + 0)%R with (INR i).
  - apply frac_part_INR.
  - field. now apply IZR_neq0.
Qed.

Lemma bilinear_at_corner (interp : R -> R) (g : nat -> nat -> nat -> R) :
  interp 0%R = 0%R -> bilinear interp 0 0 g = 0%R.
Proof.
  intros H. unfold bilinear, lerp. rewrite H. cbn [INR]. ring.
Qed.

Lemma trilinear_at_corner (interp : R -> R)
    (g : nat -> nat -> nat -> nat -> R) :
  interp 0%R = 0%R -> trilinear interp 0 0 0 g = 0%R.
Proof.
  intros H. unfold trilinear, lerp. rewrite H. cbn [INR]. ring.
Qed.

Lemma interpolant_0 : interpolant 0 = 0%R.
Proof. unfold interpolant. ring. Qed.

Lemma interpolant_1 : interpolant 1 = 1%R.
Proof. unfold interpolant. ring. Qed.

(** C3.  With [res] equal to [shape] and one octave, every sample of
    the field is at an integer lattice coordinate and is exactly 0, for
    every interpolant that vanishes at 0 (the default one does), every
    tileable, and every corner gradient: (1) the interpolation of lines
    99-113 returns the zero field on every gradient lattice whatever,
    unit or not; (2) so does the fractal combinator, and (3) its 3D
    variant, from every generator state. *)
Theorem corner_samples_are_zero :
  forall (s0 s1 s2 : Z) (interp : R -> R),
    (0 < s0)%Z -> (0 < s1)%Z -> (0 < s2)%Z -> interp 0%R = 0%R ->
    (forall L : ndarray,
        shape L = [Z.to_nat (s0 + 1); Z.to_nat (s1 + 1); 2] ->
        exists grid F,
          sample_grid_2d [s0; s1] [s0; s1] = Ok (1%Z, 1%Z, grid)
          /\ blend_2d 1 1 grid L interp = Ok F
          /\ shape F = [Z.to_nat s0; Z.to_nat s1]
          /\ forall i j, i < Z.to_nat s0 -> j < Z.to_nat s1 ->
               get F [i; j] = 0%R)
    /\ (forall (persistence : R) (lacunarity : Z) (t0 t1 : bool) (st : rng),
          exists F st',
            generate_fractal_noise_2d [s0; s1] [s0; s1] 1 persistence
              lacunarity [t0; t1] interp st = (Ok F, st')
            /\ shape F = [Z.to_nat s0; Z.to_nat s1]
            /\ forall i j, i < Z.to_nat s0 -> j < Z.to_nat s1 ->
                 get F [i; j] = 0%R)
    /\ (forall (persistence : R) (lacunarity : Z) (t0 t1 t2 : bool)
               (st : rng),
          exists F st',
            generate_fractal_noise_3d [s0; s1; s2] [s0; s1; s2] 1
              persistence lacunarity [t0; t1; t2] interp st = (Ok F, st')
            /\ shape F = [Z.to_nat s0; Z.to_nat s1; Z.to_nat s2]
            /\ forall i j k,
                 i < Z.to_nat s0 -> j < Z.to_nat s1 -> k < Z.to_nat s2 ->
                 get F [i; j; k] = 0%R).
Proof.
  intros s0 s1 s2 interp Hs0 Hs1 Hs2 Hinterp.
  split; [|split].
  - intros L HL.
    destruct (@sample_grid_2d_ok s0 s1 s0 s1 [] []) as (grid & E & Hsg & Hgg);
      try lia.
    rewrite !Z.div_same in E by lia.
    exists grid.
    replace (Z.to_nat (s0 + 1)) with (S (Z.to_nat s0)) in HL by lia.
    replace (Z.to_nat (s1 + 1)) with (S (Z.to_nat s1)) in HL by lia.
    rewrite <- (Nat.mul_1_r (Z.to_nat s0)), <- (Nat.mul_1_r (Z.to_nat s1))
      in Hsg.
    destruct (@blend_2d_ok (Z.to_nat s0) (Z.to_nat s1) 1 1 grid L interp
                ltac:(lia) ltac:(lia) Hsg HL) as (F & EF & HsF & HgF).
    rewrite !Nat.mul_1_r in HsF, HgF.
    exists F. split; [exact E|]. split; [exact EF|]. split; [exact HsF|].
    intros i j Hi Hj. rewrite HgF by assumption.
    destruct (Hgg i j) as [-> ->].
    fold (local_coord s0 s0 i). fold (local_coord s1 s1 j).
    rewrite !local_coord_same by lia.
    unfold perlin_sample_2d. rewrite bilinear_at_corner by assumption. ring.
  - intros persistence lacunarity t0 t1 st.
    destruct (@one_octave_2d s0 s1 s0 s1 lacunarity persistence t0 t1 interp
                st) as (f & F & st' & Ef & EF & HFs & HFg);
      try lia; try apply Z.divide_refl.
    destruct (@perlin_2d_ok s0 s1 s0 s1 [] [] t0 t1 [] interp st)
      as (f' & Ef' & Hsf & Hgf); try lia; try apply Z.divide_refl.
    rewrite Ef in Ef'. injection Ef' as <- _.
    exists F, st'. split; [exact EF|].
    rewrite HFs, Hsf. split; [reflexivity|].
    intros i j Hi Hj. rewrite HFg by (rewrite HFs, Hsf; bounds).
    rewrite Hgf by assumption.
    unfold perlin_value_2d, perlin_sample_2d.
    rewrite !local_coord_same, bilinear_at_corner by (try lia; assumption).
    ring.
  - intros persistence lacunarity t0 t1 t2 st.
    destruct (@one_octave_3d s0 s1 s2 s0 s1 s2 lacunarity persistence
                t0 t1 t2 interp st) as (f & F & st' & Ef & EF & HFs & HFg);
      try lia; try apply Z.divide_refl.
    destruct (@perlin_3d_ok s0 s1 s2 s0 s1 s2 [] [] t0 t1 t2 [] interp st)
      as (f' & Ef' & Hsf & Hgf); try lia; try apply Z.divide_refl.
    rewrite Ef in Ef'. injection Ef' as <- _.
    exists F, st'. split; [exact EF|].
    rewrite HFs, Hsf. split; [reflexivity|].
    intros i j k Hi Hj Hk. rewrite HFg by (rewrite HFs, Hsf; bounds).
    rewrite Hgf by assumption.
    unfold perlin_value_3d.
    rewrite !local_coord_same, trilinear_at_corner by (try lia; assumption).
    reflexivity.
Qed.

Lemma corner_samples_are_zero_witness :
  (0 < 2)%Z /\ (0 < 3)%Z /\ interpolant 0 = 0%R
  /\ (exists F st',
         generate_fractal_noise_2d [2; 3]%Z [2; 3]%Z 1 (1 / 2) 2
           [false; false] interpolant (constant_rng (1 / 4)) = (Ok F, st')
         /\ shape F = [Z.to_nat 2; Z.to_nat 3]
         /\ forall i j, i < Z.to_nat 2 -> j < Z.to_nat 3 ->
              get F [i; j] = 0%R).
Proof.
  split; [lia|]. split; [lia|]. split; [exact interpolant_0|].
  destruct (@corner_samples_are_zero 2 3 2 interpolant) as (_ & H & _);
    try lia; [exact interpolant_0|].
  apply H.
Defined.

(** ** C4: the seam of a tileable axis *)

Lemma seam_last (n : nat) : seam true n (n - 1) = seam true n 0.
Proof.
  unfold seam. cbn [andb]. rewrite Nat.eqb_refl.
  destruct (Nat.eqb 0 (n - 1)); reflexivity.
Qed.

(** C4.  The gradient lattice that lines 93-98 (2D) and 58-69 (3D)
    build has, on every axis flagged tileable, its last slice equal to
    its first slice: the gradients on the two sides of the seam are the
    same.  The builder returns a lattice of [res[i] + 1] corners on
    axis [i], for every [res] of non-negative entries and every
    generator state. *)
Theorem tileable_seam_gradients_equal :
  (forall (r0 r1 : Z) (t0 t1 : bool) (st : rng),
      (0 <= r0)%Z -> (0 <= r1)%Z ->
      let n0 := Z.to_nat (r0 + 1) in
      let n1 := Z.to_nat (r1 + 1) in
      exists L st',
        gradient_lattice_2d [r0; r1] [t0; t1] st = (Ok L, st')
        /\ shape L = [n0; n1; 2]
        /\ (t0 = true ->
            forall j c, j < n1 -> c < 2 ->
                        get L [n0 - 1; j; c] = get L [0; j; c])
        /\ (t1 = true ->
            forall i c, i < n0 -> c < 2 ->
                        get L [i; n1 - 1; c] = get L [i; 0; c]))
  /\
  (forall (r0 r1 r2 : Z) (t0 t1 t2 : bool) (st : rng),
      (0 <= r0)%Z -> (0 <= r1)%Z -> (0 <= r2)%Z ->
      let n0 := Z.to_nat (r0 + 1) in
      let n1 := Z.to_nat (r1 + 1) in
      let n2 := Z.to_nat (r2 + 1) in
      exists L st',
        gradient_lattice_3d [r0; r1; r2] [t0; t1; t2] st = (Ok L, st')
        /\ shape L = [n0; n1; n2; 3]
        /\ (t0 = true ->
            forall j k c, j < n1 -> k < n2 -> c < 3 ->
                          get L [n0 - 1; j; k; c] = get L [0; j; k; c])
        /\ (t1 = true ->
            forall i k c, i < n0 -> k < n2 -> c < 3 ->
                          get L [i; n1 - 1; k; c] = get L [i; 0; k; c])
        /\ (t2 = true ->
            forall i j c, i < n0 -> j < n1 -> c < 3 ->
                          get L [i; j; n2 - 1; c] = get L [i; j; 0; c])).
Proof.
  split.
  - intros r0 r1 t0 t1 st H0 H1 n0 n1.
    destruct (@gradient_lattice_2d_ok r0 r1 [] t0 t1 [] st H0 H1)
      as (L & E & HsL & HgL).
    fold n0 n1 in E, HsL, HgL.
    assert (Hn0 : 0 < n0) by (unfold n0; lia).
    assert (Hn1 : 0 < n1) by (unfold n1; lia).
    exists L. eexists. split; [exact E|]. split; [exact HsL|].
    split.
    + intros -> j c Hj Hc. rewrite !HgL by lia.
      now rewrite seam_last.
    + intros -> i c Hi Hc. rewrite !HgL by lia.
      now rewrite seam_last.
  - intros r0 r1 r2 t0 t1 t2 st H0 H1 H2 n0 n1 n2.
    destruct (@gradient_lattice_3d_ok r0 r1 r2 [] t0 t1 t2 [] st H0 H1 H2)
      as (L & E & HsL & HgL).
    fold n0 n1 n2 in E, HsL, HgL.
    assert (Hn0 : 0 < n0) by (unfold n0; lia).
    assert (Hn1 : 0 < n1) by (unfold n1; lia).
    assert (Hn2 : 0 < n2) by (unfold n2; lia).
    exists L. eexists. split; [exact E|]. split; [exact HsL|].
    split; [|split].
    + intros -> j k c Hj Hk Hc. rewrite !HgL by lia.
      unfold lattice_gradient_3d. now rewrite seam_last.
    + intros -> i k c Hi Hk Hc. rewrite !HgL by lia.
      unfold lattice_gradient_3d. now rewrite seam_last.
    + intros -> i j c Hi Hj Hc. rewrite !HgL by lia.
      unfold lattice_gradient_3d. now rewrite seam_last.
Qed.

Lemma tileable_seam_gradients_equal_witness :
  (exists L st',
      gradient_lattice_2d [2; 3]%Z [true; true] (constant_rng (1 / 4))
      = (Ok L, st')
      /\ shape L = [3; 4; 2]
      /\ (true = true ->
          forall j c, j < 4 -> c < 2 -> get L [2; j; c] = get L [0; j; c])
      /\ (true = true ->
          forall i c, i < 3 -> c < 2 -> get L [i; 3; c] = get L [i; 0; c]))
  /\
  (exists L st',
      gradient_lattice_3d [2; 3; 1]%Z [true; false; true]
        (constant_rng (1 / 4)) = (Ok L, st')
      /\ shape L = [3; 4; 2; 3]
      /\ (true = true ->
          forall j k c, j < 4 -> k < 2 -> c < 3 ->
                        get L [2; j; k; c] = get L [0; j; k; c])
      /\ (false = true ->
          forall i k c, i < 3 -> k < 2 -> c < 3 ->
                        get L [i; 3; k; c] = get L [i; 0; k; c])
      /\ (true = true ->
          forall i j c, i < 3 -> j < 4 -> c < 3 ->
                        get L [i; j; 1; c] = get L [i; j; 0; c])).
Proof.
  split.
  - apply (proj1 tileable_seam_gradients_equal 2%Z 3%Z true true
             (constant_rng (1 / 4))); lia.
  - apply (proj2 tileable_seam_gradients_equal 2%Z 3%Z 1%Z true false true
             (constant_rng (1 / 4))); lia.
Defined.

(** ** C6: the final scaling *)



(** ** C7: the corner gradients *)

Lemma angle_range (st : rng) (k : nat) :
  uniform_draws st -> (0 <= angle_at st k < 2 * PI)%R.
Proof.
  intros H. unfold angle_at. specialize (H (pos st + k)).
  pose proof PI_RGT_0. split; nra.
Qed.

Lemma unit_2d_norm (theta : R) :
  (unit_2d theta 0 * unit_2d theta 0 + unit_2d theta 1 * unit_2d theta 1
   = 1)%R.
Proof.
  unfold unit_2d. cbn [nth].
  pose proof (sin2_cos2 theta) as H. unfold Rsqr in H. lra.
Qed.

Lemma unit_3d_norm (theta phi : R) :
  (unit_3d theta phi 0 * unit_3d theta phi 0
   + unit_3d theta phi 1 * unit_3d theta phi 1
   + unit_3d theta phi 2 * unit_3d theta phi 2 = 1)%R.
Proof.
  unfold unit_3d. cbn [nth].
  pose proof (sin2_cos2 theta) as Ht. pose proof (sin2_cos2 phi) as Hp.
  unfold Rsqr in Ht, Hp.
  replace (sin phi * cos theta * (sin phi * cos theta)
           + sin phi * sin theta * (sin phi * sin theta)
           + cos phi * cos phi)%R
    with (sin phi * sin phi * (sin theta * sin theta + cos theta * cos theta)
          + cos phi * cos phi)%R by ring.
  rewrite Ht. lra.
Qed.

(** C7.  From a generator of draws in [0, 1), the 2D builder takes one
    draw [u] for each lattice corner, in row-major order, and gives the
    corner the gradient [(cos theta, sin theta)] of the angle
    [theta = 2 * PI * u], which is in [0, 2 * PI); the 3D builder takes
    one draw for the angle [theta] of each corner and then one more for
    its angle [phi], and gives the corner the gradient
    [(sin phi * cos theta, sin phi * sin theta, cos phi)].  Every
    gradient has Euclidean length 1.  On a tileable axis the last
    corner takes the gradient of the first ([seam]). *)
Theorem corner_gradients_are_unit_vectors :
  (forall (r0 r1 : Z) (t0 t1 : bool) (st : rng),
      (0 <= r0)%Z -> (0 <= r1)%Z -> uniform_draws st ->
      let n0 := Z.to_nat (r0 + 1) in
      let n1 := Z.to_nat (r1 + 1) in
      exists L,
        gradient_lattice_2d [r0; r1] [t0; t1] st
        = (Ok L, advance st (n0 * n1))
        /\ forall i j, i < n0 -> j < n1 ->
             let theta := angle_at st (seam t0 n0 i * n1 + seam t1 n1 j) in
             (0 <= theta < 2 * PI)%R
             /\ get L [i; j; 0] = cos theta
             /\ get L [i; j; 1] = sin theta
             /\ (get L [i; j; 0%nat] * get L [i; j; 0%nat]
                 + get L [i; j; 1%nat] * get L [i; j; 1%nat] = 1)%R)
  /\
  (forall (r0 r1 r2 : Z) (t0 t1 t2 : bool) (st : rng),
      (0 <= r0)%Z -> (0 <= r1)%Z -> (0 <= r2)%Z -> uniform_draws st ->
      let n0 := Z.to_nat (r0 + 1) in
      let n1 := Z.to_nat (r1 + 1) in
      let n2 := Z.to_nat (r2 + 1) in
      exists L,
        gradient_lattice_3d [r0; r1; r2] [t0; t1; t2] st
        = (Ok L, advance st (2 * (n0 * n1 * n2)))
        /\ forall i j k, i < n0 -> j < n1 -> k < n2 ->
             let c := (seam t0 n0 i * n1 + seam t1 n1 j) * n2
                      + seam t2 n2 k in
             let theta := angle_at st c in
             let phi := angle_at st (n0 * n1 * n2 + c) in
             (0 <= theta < 2 * PI)%R /\ (0 <= phi < 2 * PI)%R
             /\ get L [i; j; k; 0] = (sin phi * cos theta)%R
             /\ get L [i; j; k; 1] = (sin phi * sin theta)%R
             /\ get L [i; j; k; 2] = cos phi
             /\ (get L [i; j; k; 0%nat] * get L [i; j; k; 0%nat]
                 + get L [i; j; k; 1%nat] * get L [i; j; k; 1%nat]
                 + get L [i; j; k; 2%nat] * get L [i; j; k; 2%nat] = 1)%R).
Proof.
  split.
  - intros r0 r1 t0 t1 st H0 H1 Hu n0 n1.
    destruct (@gradient_lattice_2d_ok r0 r1 [] t0 t1 [] st H0 H1)
      as (L & E & HsL & HgL).
    fold n0 n1 in E, HsL, HgL.
    exists L. split; [exact E|].
    intros i j Hi Hj theta.
    split; [now apply angle_range|].
    rewrite !HgL by lia. cbn [nth]. fold theta.
    split; [reflexivity|]. split; [reflexivity|].
    exact (unit_2d_norm theta).
  - intros r0 r1 r2 t0 t1 t2 st H0 H1 H2 Hu n0 n1 n2.
    destruct (@gradient_lattice_3d_ok r0 r1 r2 [] t0 t1 t2 [] st H0 H1 H2)
      as (L & E & HsL & HgL).
    fold n0 n1 n2 in E, HsL, HgL.
    exists L. split; [exact E|].
    intros i j k Hi Hj Hk c theta phi.
    split; [now apply angle_range|]. split; [now apply angle_range|].
    rewrite !HgL by lia. unfold lattice_gradient_3d. fold c theta phi.
    split; [reflexivity|]. split; [reflexivity|]. split; [reflexivity|].
    exact (unit_3d_norm theta phi).
Qed.

Lemma constant_rng_uniform : uniform_draws (constant_rng (1 / 4)).
Proof. intros k. simpl. lra. Qed.

Lemma corner_gradients_are_unit_vectors_witness :
  uniform_draws (constant_rng (1 / 4))
  /\ (exists L,
         gradient_lattice_2d [2; 3]%Z [false; true] (constant_rng (1 / 4))
         = (Ok L, advance (constant_rng (1 / 4)) (3 * 4))
         /\ forall i j, i < 3 -> j < 4 ->
              let theta :=
                angle_at (constant_rng (1 / 4))
                  (seam false 3 i * 4 + seam true 4 j) in
              (0 <= theta < 2 * PI)%R
              /\ get L [i; j; 0] = cos theta
              /\ get L [i; j; 1] = sin theta
              /\ (get L [i; j; 0%nat] * get L [i; j; 0%nat]
                  + get L [i; j; 1%nat] * get L [i; j; 1%nat] = 1)%R)
  /\ (exists L,
         gradient_lattice_3d [2; 3; 1]%Z [false; true; false]
           (constant_rng (1 / 4))
         = (Ok L, advance (constant_rng (1 / 4)) (2 * (3 * 4 * 2)))
         /\ forall i j k, i < 3 -> j < 4 -> k < 2 ->
              let c := (seam false 3 i * 4 + seam true 4 j) * 2
                       + seam false 2 k in
              let theta := angle_at (constant_rng (1 / 4)) c in
              let phi := angle_at (constant_rng (1 / 4)) (3 * 4 * 2 + c) in
              (0 <= theta < 2 * PI)%R /\ (0 <= phi < 2 * PI)%R
              /\ get L [i; j; k; 0] = (sin phi * cos theta)%R
              /\ get L [i; j; k; 1] = (sin phi * sin theta)%R
              /\ get L [i; j; k; 2] = cos phi
              /\ (get L [i; j; k; 0%nat] * get L [i; j; k; 0%nat]
                  + get L [i; j; k; 1%nat] * get L [i; j; k; 1%nat]
                  + get L [i; j; k; 2%nat] * get L [i; j; k; 2%nat] = 1)%R).
Proof.
  split; [exact constant_rng_uniform|]. split.
  - apply (proj1 corner_gradients_are_unit_vectors 2%Z 3%Z false true
             (constant_rng (1 / 4))); try lia.
    exact constant_rng_uniform.
  - apply (proj2 corner_gradients_are_unit_vectors 2%Z 3%Z 1%Z
             false true false (constant_rng (1 / 4))); try lia.
    exact constant_rng_uniform.
Defined.

(** ** C8: determinism *)















(** ** C5: a shape that is not a multiple of res *)

(** C5.  The evaluator at [shape = (1, 1)], [res = (2, 2)]: 1 is not a
    multiple of 2, and the call raises nothing.  [d] is [(0, 0)], the
    repeated gradients are empty, and the grid of one sample broadcasts
    against them: the evaluator returns an empty field of shape
    [(0, 0)] where [(1, 1)] was asked for.  The same in 3D.  At
    [shape = (10, 10)], [res = (3, 3)], the example of the
    specification, the call raises [ValueError]. *)
Theorem shape_not_multiple_of_res :
  forall (t0 t1 t2 : bool) (interp : R -> R) (st : rng),
    (exists F st',
        generate_perlin_noise_2d [1; 1]%Z [2; 2]%Z [t0; t1] interp st
        = (Ok F, st')
        /\ shape F = [0; 0])
    /\ (exists F st',
           generate_perlin_noise_3d [1; 1; 1]%Z [2; 2; 2]%Z [t0; t1; t2]
             interp st = (Ok F, st')
           /\ shape F = [0; 0; 0])
    /\ (exists st',
           generate_perlin_noise_2d [10; 10]%Z [3; 3]%Z [t0; t1] interp st
           = (Raise ValueError, st')).
Proof.
  intros t0 t1 t2 interp st. split; [|split].
  - destruct (@perlin_2d_blend 1 1 2 2 t0 t1 interp st)
      as (grid & L & Hsg & HsL & E); try lia.
    rewrite E. destruct grid as [sg gg], L as [sl gl].
    vm_compute in Hsg, HsL. subst sg sl. change (1 / 2)%Z with 0%Z.
    match goal with
    | |- context [blend_2d ?a ?b ?g ?l ?i] =>
        assert (H : outcome (blend_2d a b g l i) = Ok [0; 0])
          by (unfold blend_2d; repeat eval_head; reflexivity);
        destruct (outcome_ok _ H) as [gF ->]
    end.
    eexists. eexists. split; reflexivity.
  - destruct (@perlin_3d_blend 1 1 1 2 2 2 t0 t1 t2 interp st)
      as (grid & L & Hsg & HsL & E); try lia.
    rewrite E. destruct grid as [sg gg], L as [sl gl].
    vm_compute in Hsg, HsL. subst sg sl. change (1 / 2)%Z with 0%Z.
    match goal with
    | |- context [blend_3d ?a ?b ?c ?g ?l ?i] =>
        assert (H : outcome (blend_3d a b c g l i) = Ok [0; 0; 0])
          by (unfold blend_3d; repeat eval_head; reflexivity);
        destruct (outcome_ok _ H) as [gF ->]
    end.
    eexists. eexists. split; reflexivity.
  - destruct (@perlin_2d_blend 10 10 3 3 t0 t1 interp st)
      as (grid & L & Hsg & HsL & E); try lia.
    rewrite E. destruct grid as [sg gg], L as [sl gl].
    vm_compute in Hsg, HsL. subst sg sl. change (10 / 3)%Z with 3%Z.
    match goal with
    | |- context [blend_2d ?a ?b ?g ?l ?i] =>
        assert (H : outcome (blend_2d a b g l i) = Raise ValueError)
          by (unfold blend_2d; repeat eval_head; reflexivity);
        rewrite (outcome_raise _ H)
    end.
    eexists. reflexivity.
Qed.

(** ** C9: the parameters that make a call raise *)




(** * Further properties of the code *)

Open Scope R_scope.

(** ** The default interpolant *)

Lemma interpolant_symmetric (t : R) : interpolant (1 - t) = 1 - interpolant t.
Proof. unfold interpolant. ring. Qed.

Lemma interpolant_nonneg (t : R) : 0 <= t -> 0 <= interpolant t.
Proof.
  intros Ht. unfold interpolant.
  replace (t * t * t * (t * (t * 6 - 15) + 10))
    with (t * (t * t) * (6 * ((t - 5 / 4) * (t - 5 / 4)) + 5 / 8)) by field.
  apply Rmult_le_pos.
  - apply Rmult_le_pos; [assumption|apply Rle_0_sqr].
  - pose proof (Rle_0_sqr (t - 5 / 4)) as H. unfold Rsqr in H. lra.
Qed.

Lemma interpolant_unit (t : R) : 0 <= t <= 1 -> 0 <= interpolant t <= 1.
Proof.
  intros [H0 H1]. split; [now apply interpolant_nonneg|].
  pose proof (@interpolant_nonneg (1 - t) ltac:(lra)) as H.
  rewrite interpolant_symmetric in H. lra.
Qed.


Lemma interpolant_derivative (x : R) :
  derivable_pt_lim interpolant x (30 * (x * x) * ((1 - x) * (1 - x))).
Proof.
  evar (l : R).
  assert (H : derivable_pt_lim
                (id * id * id * (id * (id * fct_cte 6 - fct_cte 15)
                                 + fct_cte 10))%F x l).
  { subst l.
    repeat first
      [ apply derivable_pt_lim_mult | apply derivable_pt_lim_minus
      | apply derivable_pt_lim_plus | apply derivable_pt_lim_id
      | apply derivable_pt_lim_const ]. }
  replace (30 * (x * x) * ((1 - x) * (1 - x))) with l
    by (subst l; unfold mult_fct, minus_fct, plus_fct, id, fct_cte; ring).
  exact H.
Qed.

Lemma interpolant_increasing (t u : R) :
  t <= u -> interpolant t <= interpolant u.
Proof.
  set (pr := fun x : R =>
               exist (fun l => derivable_pt_abs interpolant x l) _
                 (interpolant_derivative x) : derivable_pt interpolant x).
  apply (nonneg_derivative_1 interpolant pr).
  intros x. cbn.
  apply Rmult_le_pos; [|apply Rle_0_sqr].
  pose proof (Rle_0_sqr x) as H. unfold Rsqr in H. lra.
Qed.


(** X1.  On the unit interval the default interpolant
    [6 t^5 - 15 t^4 + 10 t^3] is a nondecreasing map into the unit
    interval, symmetric about the point [(1/2, 1/2)]: the blend weights
    of every sample are in [[0, 1]]. *)
Theorem interpolant_monotone_unit :
  forall t u : R,
    0 <= t -> t <= u -> u <= 1 ->
    0 <= interpolant t /\ interpolant t <= interpolant u
    /\ interpolant u <= 1
    /\ interpolant (1 - t) = 1 - interpolant t.
Proof.
  intros t u H0 Htu H1.
  split; [apply interpolant_nonneg; lra|].
  split; [now apply interpolant_increasing|].
  split; [apply interpolant_unit; lra|].
  apply interpolant_symmetric.
Qed.

Lemma interpolant_monotone_unit_witness :
  0 <= 1 / 4 /\ 1 / 4 <= 1 / 2 /\ 1 / 2 <= 1
  /\ 0 <= interpolant (1 / 4)
  /\ interpolant (1 / 4) <= interpolant (1 / 2)
  /\ interpolant (1 / 2) <= 1
  /\ interpolant (1 - 1 / 4) = 1 - interpolant (1 / 4).
Proof.
  split; [lra|]. split; [lra|]. split; [lra|].
  apply (@interpolant_monotone_unit (1 / 4) (1 / 2)); lra.
Defined.

(** ** The range of one sample *)

















(** ** The octaves of a fractal field *)





Lemma amplitude_sum_nonneg (p : R) (n : nat) : 0 <= p -> 0 <= amplitude_sum p n.
Proof.
  intros Hp. induction n as [|n IH]; simpl; [lra|].
  pose proof (Rmult_le_pos _ _ Hp IH). lra.
Qed.




(** ** The range and the draws of the fractal fields *)







(** ** The local coordinates *)

Lemma frac_part_shift (q : nat) (x : R) :
  0 <= x < 1 -> frac_part (INR q + x) = x.
Proof.
  intros Hx. unfold frac_part.
  rewrite <- (Int_part_spec (INR q + x) (Z.of_nat q)).
  - rewrite <- INR_IZR_INZ. ring.
  - rewrite <- INR_IZR_INZ. lra.
Qed.



Lemma local_coord_closed (r s : Z) (i : nat) :
  (0 < r)%Z -> (0 < s)%Z -> (r | s)%Z ->
  local_coord r s i
  = INR (i mod Z.to_nat (s / r)) / INR (Z.to_nat (s / r)).
Proof.
  intros Hr Hs [q Hq]. subst s.
  assert (Hq0 : (0 < q)%Z) by nia.
  rewrite Z.div_mul by lia.
  set (D := Z.to_nat q).
  assert (HD : (0 < D)%nat) by (unfold D; lia).
  assert (HDR : 0 < INR D) by (apply lt_0_INR; assumption).
  unfold local_coord.
  replace (IZR r / IZR (q * r)) with (/ INR D).
  2:{ unfold D. rewrite INR_IZR_INZ, Z2Nat.id, mult_IZR by lia.
      field. split; apply IZR_neq0; lia. }
  replace (INR i * / INR D + 0)
    with (INR (i / D) + INR (i mod D) / INR D).
  - apply frac_part_shift. split.
    + apply Rmult_le_pos; [apply pos_INR|].
      apply Rlt_le, Rinv_0_lt_compat, HDR.
    + apply Rmult_lt_reg_r with (r := INR D); [exact HDR|].
      unfold Rdiv. rewrite Rmult_assoc, Rinv_l, Rmult_1_r, Rmult_1_l by lra.
      apply lt_INR, Nat.mod_upper_bound. lia.
  - rewrite (Nat.div_mod_eq i D) at 3.
    rewrite plus_INR, mult_INR. field. lra.
Qed.



(** ** The sample grid and the lattice corners *)







(** ** The 2D evaluator on every positive shape and res *)











Lemma not_multiple_raises_2d_after_draws (s0 s1 r0 r1 : Z) (t0 t1 : bool)
    (interp : R -> R) (st : rng) :
  (0 < s0)%Z -> (0 < s1)%Z -> (0 < r0)%Z -> (0 < r1)%Z ->
  (~ (r0 | s0)%Z /\ s0 <> 1%Z) \/ (~ (r1 | s1)%Z /\ s1 <> 1%Z) ->
  generate_perlin_noise_2d [s0; s1] [r0; r1] [t0; t1] interp st
  = (Raise ValueError, advance st (Z.to_nat (r0 + 1) * Z.to_nat (r1 + 1))).
Proof.
  intros Hs0 Hs1 Hr0 Hr1 Hbad.
  destruct (@not_multiple_raises_2d s0 s1 r0 r1 t0 t1 interp st)
    as (st' & E); try assumption.
  destruct (@perlin_2d_blend s0 s1 r0 r1 t0 t1 interp st)
    as (grid & L & _ & _ & E'); try assumption.
  rewrite E. rewrite E' in E. injection E as _ <-. reflexivity.
Qed.






(** ** The input errors of the fractal combinator *)



(** ** The errors raised before a draw *)

Lemma mgrid_negative_2d (s0 s1 r0 r1 : Z) :
  s0 <> 0%Z -> s1 <> 0%Z -> r0 <> 0%Z -> r1 <> 0%Z ->
  (s0 < 0)%Z \/ (s1 < 0)%Z ->
  Np.mgrid [(0%Z, r0, IZR r0 / IZR s0); (0%Z, r1, IZR r1 / IZR s1)]
  = Raise ValueError.
Proof.
  intros Hs0 Hs1 Hr0 Hr1 Hneg. unfold Np.mgrid. cbn [existsb snd].
  destruct (Req_dec_T (IZR r0 / IZR s0) 0) as [E|_];
    [exfalso; revert E; now apply delta_neq0|].
  destruct (Req_dec_T (IZR r1 / IZR s1) 0) as [E|_];
    [exfalso; revert E; now apply delta_neq0|].
  cbn [orb List.map]. rewrite !mgrid_len_exact by assumption.
  unfold nonneg. cbn [forallb].
  destruct (Z.leb_spec 0 s0), (Z.leb_spec 0 s1); try reflexivity; lia.
Qed.

Lemma mgrid_negative_3d (s0 s1 s2 r0 r1 r2 : Z) :
  s0 <> 0%Z -> s1 <> 0%Z -> s2 <> 0%Z ->
  r0 <> 0%Z -> r1 <> 0%Z -> r2 <> 0%Z ->
  (s0 < 0)%Z \/ (s1 < 0)%Z \/ (s2 < 0)%Z ->
  Np.mgrid [(0%Z, r0, IZR r0 / IZR s0); (0%Z, r1, IZR r1 / IZR s1);
            (0%Z, r2, IZR r2 / IZR s2)]
  = Raise ValueError.
Proof.
  intros Hs0 Hs1 Hs2 Hr0 Hr1 Hr2 Hneg. unfold Np.mgrid. cbn [existsb snd].
  destruct (Req_dec_T (IZR r0 / IZR s0) 0) as [E|_];
    [exfalso; revert E; now apply delta_neq0|].
  destruct (Req_dec_T (IZR r1 / IZR s1) 0) as [E|_];
    [exfalso; revert E; now apply delta_neq0|].
  destruct (Req_dec_T (IZR r2 / IZR s2) 0) as [E|_];
    [exfalso; revert E; now apply delta_neq0|].
  cbn [orb List.map]. rewrite !mgrid_len_exact by assumption.
  unfold nonneg. cbn [forallb].
  destruct (Z.leb_spec 0 s0), (Z.leb_spec 0 s1), (Z.leb_spec 0 s2);
    try reflexivity; lia.
Qed.

Lemma sample_grid_2d_rejects (s0 s1 r0 r1 : Z) (ss rs : list Z) :
  (s0 <= 0)%Z \/ (s1 <= 0)%Z \/ r0 = 0%Z \/ r1 = 0%Z ->
  sample_grid_2d (s0 :: s1 :: ss) (r0 :: r1 :: rs)
  = Raise (grid_exception
             ((s0 =? 0)%Z || (s1 =? 0)%Z || (r0 =? 0)%Z || (r1 =? 0)%Z)).
Proof.
  intros Hbad.
  unfold sample_grid_2d, tuple_get, truediv, floordiv, grid_exception.
  cbn [nth_error rbind].
  destruct (Z.eqb_spec s0 0); [reflexivity|].
  destruct (Z.eqb_spec s1 0); [reflexivity|].
  destruct (Z.eqb_spec r0 0); [reflexivity|].
  destruct (Z.eqb_spec r1 0); [reflexivity|].
  cbn [rbind orb]. rewrite mgrid_negative_2d by (try assumption; lia).
  reflexivity.
Qed.

Lemma sample_grid_3d_rejects (s0 s1 s2 r0 r1 r2 : Z) (ss rs : list Z) :
  (s0 <= 0)%Z \/ (s1 <= 0)%Z \/ (s2 <= 0)%Z
  \/ r0 = 0%Z \/ r1 = 0%Z \/ r2 = 0%Z ->
  sample_grid_3d (s0 :: s1 :: s2 :: ss) (r0 :: r1 :: r2 :: rs)
  = Raise (grid_exception
             ((s0 =? 0)%Z || (s1 =? 0)%Z || (s2 =? 0)%Z
              || (r0 =? 0)%Z || (r1 =? 0)%Z || (r2 =? 0)%Z)).
Proof.
  intros Hbad.
  unfold sample_grid_3d, tuple_get, truediv, floordiv, grid_exception.
  cbn [nth_error rbind].
  destruct (Z.eqb_spec s0 0); [reflexivity|].
  destruct (Z.eqb_spec s1 0); [reflexivity|].
  destruct (Z.eqb_spec s2 0); [reflexivity|].
  destruct (Z.eqb_spec r0 0); [reflexivity|].
  destruct (Z.eqb_spec r1 0); [reflexivity|].
  destruct (Z.eqb_spec r2 0); [reflexivity|].
  cbn [rbind orb]. rewrite mgrid_negative_3d by (try assumption; lia).
  reflexivity.
Qed.

Lemma for_range_first_fails {S : Type} (n : nat) (body : S -> M S) (s : S)
    (st st' : rng) (e : exn) :
  (0 < n)%nat -> body s st = (Raise e, st') ->
  for_range n body s st = (Raise e, st').
Proof.
  intros Hn E. destruct n as [|n]; [lia|].
  cbn [for_range]. unfold bind. now rewrite E.
Qed.

(** X11.  A shape with an entry that is zero or negative, or a res
    with a zero entry, makes the evaluators raise before the lattice
    is drawn, and the generator stays where it was:
    [ZeroDivisionError] when one of the entries is zero, from
    [res / shape] or [shape // res], and [ValueError] otherwise, from
    [np.mgrid] on the negative number of samples.  [tileable] is not
    read. *)
Theorem evaluators_reject_before_drawing :
  forall (s0 s1 s2 r0 r1 r2 : Z) (tileable : list bool) (interp : R -> R)
         (st : rng),
    ((s0 <= 0)%Z \/ (s1 <= 0)%Z \/ r0 = 0%Z \/ r1 = 0%Z ->
     generate_perlin_noise_2d [s0; s1] [r0; r1] tileable interp st
     = (Raise (grid_exception
                 ((s0 =? 0)%Z || (s1 =? 0)%Z || (r0 =? 0)%Z
                  || (r1 =? 0)%Z)), st))
    /\ ((s0 <= 0)%Z \/ (s1 <= 0)%Z \/ (s2 <= 0)%Z
        \/ r0 = 0%Z \/ r1 = 0%Z \/ r2 = 0%Z ->
        generate_perlin_noise_3d [s0; s1; s2] [r0; r1; r2] tileable interp st
        = (Raise (grid_exception
                    ((s0 =? 0)%Z || (s1 =? 0)%Z || (s2 =? 0)%Z
                     || (r0 =? 0)%Z || (r1 =? 0)%Z || (r2 =? 0)%Z)), st)).
Proof.
  intros s0 s1 s2 r0 r1 r2 tileable interp st. split; intros Hbad.
  - unfold generate_perlin_noise_2d, bind, lift.
    now rewrite sample_grid_2d_rejects.
  - unfold generate_perlin_noise_3d, bind, lift.
    now rewrite sample_grid_3d_rejects.
Qed.

Lemma evaluators_reject_before_drawing_witness :
  ((-4 <= 0)%Z \/ (4 <= 0)%Z \/ 2%Z = 0%Z \/ 2%Z = 0%Z)
  /\ generate_perlin_noise_2d [-4; 4]%Z [2; 2]%Z [] interpolant
       (constant_rng (1 / 4))
     = (Raise ValueError, constant_rng (1 / 4))
  /\ ((4 <= 0)%Z \/ (4 <= 0)%Z \/ (4 <= 0)%Z
      \/ 2%Z = 0%Z \/ 0%Z = 0%Z \/ 2%Z = 0%Z)
  /\ generate_perlin_noise_3d [4; 4; 4]%Z [2; 0; 2]%Z [] interpolant
       (constant_rng (1 / 4))
     = (Raise ZeroDivisionError, constant_rng (1 / 4)).
Proof.
  assert (H2 : (-4 <= 0)%Z \/ (4 <= 0)%Z \/ 2%Z = 0%Z \/ 2%Z = 0%Z)
    by (left; lia).
  assert (H3 : (4 <= 0)%Z \/ (4 <= 0)%Z \/ (4 <= 0)%Z
               \/ 2%Z = 0%Z \/ 0%Z = 0%Z \/ 2%Z = 0%Z)
    by (right; right; right; right; left; reflexivity).
  split; [exact H2|]. split.
  - exact (proj1 (@evaluators_reject_before_drawing (-4) 4 0 2 2 0 []
                    interpolant (constant_rng (1 / 4))) H2).
  - split; [exact H3|].
    exact (proj2 (@evaluators_reject_before_drawing 4 4 4 2 0 2 []
                    interpolant (constant_rng (1 / 4))) H3).
Defined.

(** X12.  [generate_fractal_noise_2d] builds [np.zeros(shape)] before
    its loop: a shape with a negative entry raises [ValueError]
    whatever the other parameters, the number of octaves included; a
    shape of non-negative entries raises [ZeroDivisionError] from the
    first octave when one of its entries, or one of those of [res],
    is zero.  Neither call consumes a draw. *)
Theorem fractal_rejects_before_drawing :
  forall (s0 s1 r0 r1 octaves lacunarity : Z) (persistence : R)
         (tileable : list bool) (interp : R -> R) (st : rng),
    ((s0 < 0)%Z \/ (s1 < 0)%Z ->
     generate_fractal_noise_2d [s0; s1] [r0; r1] octaves persistence
       lacunarity tileable interp st = (Raise ValueError, st))
    /\ ((0 <= s0)%Z -> (0 <= s1)%Z -> (1 <= octaves)%Z ->
        s0 = 0%Z \/ s1 = 0%Z \/ r0 = 0%Z \/ r1 = 0%Z ->
        generate_fractal_noise_2d [s0; s1] [r0; r1] octaves persistence
          lacunarity tileable interp st = (Raise ZeroDivisionError, st)).
Proof.
  intros s0 s1 r0 r1 octaves lac pers tileable interp st. split.
  - intros Hneg. unfold generate_fractal_noise_2d, bind, lift, Np.zeros, nonneg.
    cbn [forallb].
    destruct (Z.leb_spec 0 s0), (Z.leb_spec 0 s1); try reflexivity; lia.
  - intros Hs0 Hs1 Hoct Hz. unfold generate_fractal_noise_2d.
    unfold bind at 1. unfold lift at 1.
    rewrite zeros_ok
      by (unfold nonneg; cbn [forallb]; rewrite !andb_true_iff;
          repeat split; apply Z.leb_le; lia).
    unfold bind.
    rewrite (@for_range_first_fails _ (Z.to_nat octaves) _ _ st st
               ZeroDivisionError); [reflexivity|lia|].
    unfold octave_2d, bind, lift. cbn [tuple_get nth_error].
    unfold generate_perlin_noise_2d, bind, lift.
    rewrite sample_grid_2d_rejects by lia.
    unfold grid_exception.
    replace ((s0 =? 0)%Z || (s1 =? 0)%Z || (1 * r0 =? 0)%Z
             || (1 * r1 =? 0)%Z) with true; [reflexivity|].
    symmetry. rewrite !orb_true_iff, !Z.eqb_eq. lia.
Qed.

Lemma fractal_rejects_before_drawing_witness :
  ((-4 < 0)%Z \/ (4 < 0)%Z)
  /\ generate_fractal_noise_2d [-4; 4]%Z [2; 0]%Z 0 (1 / 2) 2 []
       interpolant (constant_rng (1 / 4))
     = (Raise ValueError, constant_rng (1 / 4))
  /\ (0 <= 4)%Z /\ (0 <= 4)%Z /\ (1 <= 3)%Z
  /\ (4%Z = 0%Z \/ 4%Z = 0%Z \/ 2%Z = 0%Z \/ 0%Z = 0%Z)
  /\ generate_fractal_noise_2d [4; 4]%Z [2; 0]%Z 3 (1 / 2) 2 []
       interpolant (constant_rng (1 / 4))
     = (Raise ZeroDivisionError, constant_rng (1 / 4)).
Proof.
  assert (Hn : (-4 < 0)%Z \/ (4 < 0)%Z) by (left; lia).
  assert (Hz : 4%Z = 0%Z \/ 4%Z = 0%Z \/ 2%Z = 0%Z \/ 0%Z = 0%Z)
    by (right; right; right; reflexivity).
  split; [exact Hn|]. split.
  - exact (proj1 (@fractal_rejects_before_drawing (-4) 4 2 0 0 2 (1 / 2) []
                    interpolant (constant_rng (1 / 4))) Hn).
  - split; [lia|]. split; [lia|]. split; [lia|]. split; [exact Hz|].
    apply (proj2 (@fractal_rejects_before_drawing 4 4 2 0 3 2 (1 / 2) []
                    interpolant (constant_rng (1 / 4)))); lia.
Defined.

(** ** The evaluator on a shape that is not a multiple of res *)

(** X13.  On a positive shape and res, an axis of two samples or more
    that is not a multiple of its res makes [generate_perlin_noise_2d]
    raise [ValueError], from the product of the sample grid and the
    repeated gradients, after the lattice is drawn: the failed call
    has consumed [(res[0] + 1) * (res[1] + 1)] draws. *)
Theorem perlin_2d_mismatch_after_drawing :
  forall (s0 s1 r0 r1 : Z) (t0 t1 : bool) (interp : R -> R) (st : rng),
    (0 < s0)%Z -> (0 < s1)%Z -> (0 < r0)%Z -> (0 < r1)%Z ->
    (~ (r0 | s0)%Z /\ s0 <> 1%Z) \/ (~ (r1 | s1)%Z /\ s1 <> 1%Z) ->
    generate_perlin_noise_2d [s0; s1] [r0; r1] [t0; t1] interp st
    = (Raise ValueError,
       advance st (Z.to_nat (r0 + 1) * Z.to_nat (r1 + 1))).
Proof. intros. now apply not_multiple_raises_2d_after_draws. Qed.

Lemma perlin_2d_mismatch_after_drawing_witness :
  generate_perlin_noise_2d [10; 4]%Z [3; 2]%Z [false; true] interpolant
    (constant_rng (1 / 4))
  = (Raise ValueError, advance (constant_rng (1 / 4)) 12).
Proof.
  apply (@perlin_2d_mismatch_after_drawing 10 4 3 2 false true interpolant
           (constant_rng (1 / 4))); try lia.
  left. split; [|lia]. intros [q Hq]. lia.
Defined.



(** ** A tileable with too few entries *)

Lemma lattice_2d_short_tileable (r0 r1 : Z) (rs : list Z)
    (tileable : list bool) (st : rng) :
  (0 <= r0)%Z -> (0 <= r1)%Z -> (length tileable < 2)%nat ->
  gradient_lattice_2d (r0 :: r1 :: rs) tileable st
  = (Raise IndexError,
     advance st (Z.to_nat (r0 + 1) * Z.to_nat (r1 + 1))).
Proof.
  intros H0 H1 Hlen.
  set (n0 := Z.to_nat (r0 + 1)). set (n1 := Z.to_nat (r1 + 1)).
  assert (Hn0 : (0 < n0)%nat) by (unfold n0; lia).
  assert (Hn1 : (0 < n1)%nat) by (unfold n1; lia).
  unfold gradient_lattice_2d, lift, bind, ret.
  cbn [tuple_get nth_error].
  rewrite rand_run
    by (unfold nonneg; cbn [forallb]; rewrite !andb_true_iff;
        repeat split; apply Z.leb_le; lia).
  cbn [List.map prod_list fold_right]. fold n0 n1.
  set (u := mk_nd [n0; n1] _).
  unfold Np.dstack.
  destruct (@stack_yields 2 (Np.map cos (Np.smul (2 * PI) u))
          [Np.map sin (Np.smul (2 * PI) u)] [n0; n1]) as (g & E & Hsg & _).
  { repeat constructor. } { simpl; lia. }
  rewrite E; clear E. cbn [insert_nth length] in Hsg.
  unfold advance. rewrite Nat.mul_1_r.
  destruct tileable as [|t0 [|t1 ts]]; [reflexivity| |simpl in Hlen; lia].
  cbn [tuple_get nth_error].
  destruct (@tile_axis_ok 0 t0 g _ Hsg) as (g1 & E & _);
    [simpl; lia | simpl; lia |].
  rewrite E. reflexivity.
Qed.

(** X15.  A [tileable] of fewer than two entries makes
    [generate_perlin_noise_2d] raise [IndexError] on a positive shape
    and res, multiple or not: [tileable] is read after the lattice is
    drawn, and the failed call has consumed
    [(res[0] + 1) * (res[1] + 1)] draws. *)
Theorem short_tileable_raises_after_drawing :
  forall (s0 s1 r0 r1 : Z) (tileable : list bool) (interp : R -> R)
         (st : rng),
    (0 < s0)%Z -> (0 < s1)%Z -> (0 < r0)%Z -> (0 < r1)%Z ->
    (length tileable < 2)%nat ->
    generate_perlin_noise_2d [s0; s1] [r0; r1] tileable interp st
    = (Raise IndexError,
       advance st (Z.to_nat (r0 + 1) * Z.to_nat (r1 + 1))).
Proof.
  intros s0 s1 r0 r1 tileable interp st Hs0 Hs1 Hr0 Hr1 Hlen.
  destruct (@sample_grid_2d_ok s0 s1 r0 r1 [] []) as (grid & E & _);
    try lia.
  unfold generate_perlin_noise_2d, bind.
  unfold lift at 1. rewrite E.
  now rewrite lattice_2d_short_tileable by (try lia; assumption).
Qed.

Lemma short_tileable_raises_after_drawing_witness :
  generate_perlin_noise_2d [4; 4]%Z [2; 2]%Z [true] interpolant
    (constant_rng (1 / 4))
  = (Raise IndexError, advance (constant_rng (1 / 4)) 9).
Proof.
  apply (@short_tileable_raises_after_drawing 4 4 2 2 [true] interpolant
           (constant_rng (1 / 4))); simpl; lia.
Defined.

(** ** The grid as a list of points *)

Lemma linspace_yields (start stop : R) (n : nat) :
  exists a,
    Np.linspace start stop (Z.of_nat n) = Ok a
    /\ shape a = [n]
    /\ forall k, (k < n)%nat -> get a [k] = linspace_point start stop n k.
Proof.
  unfold Np.linspace.
  replace (Z.of_nat n <? 0)%Z with false by (symmetry; apply Z.ltb_ge; lia).
  rewrite Nat2Z.id. eexists. split; [reflexivity|]. split; [reflexivity|].
  intros k Hk. cbn [get nth]. unfold linspace_point.
  destruct (Nat.leb_spec n 1) as [Hn|Hn].
  - replace (Nat.ltb 1 n) with false by (symmetry; apply Nat.ltb_ge; lia).
    replace (Nat.ltb 0 (n - 1)) with false
      by (symmetry; apply Nat.ltb_ge; lia).
    cbn [andb]. replace k with 0%nat by lia. cbn [INR]. ring.
  - replace (Nat.ltb 1 n) with true by (symmetry; apply Nat.ltb_lt; lia).
    replace (Nat.ltb 0 (n - 1)) with true
      by (symmetry; apply Nat.ltb_lt; lia).
    cbn [andb].
    assert (Hd : INR (n - 1) <> 0) by (apply not_0_INR; lia).
    destruct (Nat.eqb_spec k (n - 1)) as [->|Hne].
    + field. exact Hd.
    + destruct (Req_dec_T ((stop - start) / INR (n - 1)) 0); field; exact Hd.
Qed.

Lemma unravel_2d (N M i j : nat) :
  (j < M)%nat -> Np.unravel [N; M] (i * M + j) = [i; j].
Proof.
  intros Hj. cbn [Np.unravel prod_list fold_right].
  rewrite !Nat.mul_1_r, Nat.div_1_r.
  rewrite Nat.div_add_l, Nat.div_small, Nat.add_0_r by lia.
  rewrite Nat.add_comm, Nat.Div0.mod_add, Nat.mod_small by lia.
  reflexivity.
Qed.

Lemma grid_to_xyz_ok (z_grid : ndarray) (start stop : R) (N M : nat) :
  shape z_grid = [N; M] ->
  exists xyz,
    grid_to_xyz z_grid start stop = Ok xyz
    /\ shape xyz = [(N * M)%nat; 3%nat]
    /\ forall i j, (i < N)%nat -> (j < M)%nat ->
         get xyz [(i * M + j)%nat; 0%nat] = linspace_point start stop M j
         /\ get xyz [(i * M + j)%nat; 1%nat] = linspace_point start stop N i
         /\ get xyz [(i * M + j)%nat; 2%nat] = get z_grid [i; j].
Proof.
  intros Hz. unfold grid_to_xyz. rewrite Hz.
  destruct (linspace_yields start stop M) as (x & Ex & Hsx & Hgx).
  destruct (linspace_yields start stop N) as (y & Ey & Hsy & Hgy).
  rewrite Ex, Ey. cbn [rbind]. unfold Np.meshgrid, Np.column_stack.
  rewrite Hsx, Hsy. cbn [nth].
  match goal with
  | |- context [Np.stack 1 (?a :: ?rest)] =>
      destruct (@stack_yields 1 a rest [(N * (M * 1))%nat])
        as (xyz & E & Hs & Hg)
  end.
  { repeat constructor; cbn [Np.ravel shape prod_list fold_right];
      now rewrite ?Hz. }
  { simpl; lia. }
  exists xyz. split; [exact E|].
  cbn [insert_nth length] in Hs. rewrite Nat.mul_1_r in Hs.
  split; [exact Hs|].
  intros i j Hi Hj. rewrite !Hg.
  cbn [nth remove_nth Np.ravel get shape]. rewrite Hz.
  rewrite !unravel_2d by assumption. cbn [nth].
  rewrite Hgx, Hgy by assumption. repeat split.
Qed.

Lemma linspace_point_between (start stop : R) (n k : nat) :
  start <= stop -> (k < n)%nat ->
  start <= linspace_point start stop n k <= stop.
Proof.
  intros Hle Hk. unfold linspace_point.
  destruct (Nat.leb_spec n 1) as [Hn|Hn]; [lra|].
  assert (Hd : 0 < INR (n - 1)) by (apply lt_0_INR; lia).
  assert (H0 : 0 <= INR k) by apply pos_INR.
  assert (H1 : INR k <= INR (n - 1)) by (apply le_INR; lia).
  assert (Hq : 0 <= INR k / INR (n - 1) <= 1).
  { split.
    - apply Rmult_le_pos; [assumption|]. now apply Rlt_le, Rinv_0_lt_compat.
    - apply Rmult_le_reg_r with (r := INR (n - 1)); [assumption|].
      unfold Rdiv. rewrite Rmult_assoc, Rinv_l, Rmult_1_r, Rmult_1_l by lra.
      assumption. }
  replace (start + INR k * (stop - start) / INR (n - 1))
    with (start + INR k / INR (n - 1) * (stop - start)) by (field; lra).
  split; nra.
Qed.

Lemma linspace_point_first (start stop : R) (n : nat) :
  linspace_point start stop n 0 = start.
Proof.
  unfold linspace_point. destruct (Nat.leb n 1); [reflexivity|].
  cbn [INR]. unfold Rdiv. ring.
Qed.

Lemma linspace_point_last (start stop : R) (n : nat) :
  (2 <= n)%nat -> linspace_point start stop n (n - 1) = stop.
Proof.
  intros Hn. unfold linspace_point.
  destruct (Nat.leb_spec n 1); [lia|].
  field. apply not_0_INR. lia.
Qed.

(** X16.  [grid_to_xyz] on a grid of [N] rows and [M] columns returns
    [N * M] points, one for each sample of the grid and in row-major
    order: the point [i * M + j] is [(x_j, y_i, z_grid[i, j])], with
    [x_j] the point [j] of [M] evenly spaced from [start_coordinate] to
    [end_coordinate] and [y_i] the point [i] of [N].  An axis of a
    single sample is at [start_coordinate]; an empty grid gives no
    point and no error. *)
Theorem grid_to_xyz_points :
  forall (z_grid : ndarray) (start_coordinate end_coordinate : R)
         (N M : nat),
    shape z_grid = [N; M] ->
    exists xyz,
      grid_to_xyz z_grid start_coordinate end_coordinate = Ok xyz
      /\ shape xyz = [(N * M)%nat; 3%nat]
      /\ forall i j, (i < N)%nat -> (j < M)%nat ->
           get xyz [(i * M + j)%nat; 0%nat]
           = linspace_point start_coordinate end_coordinate M j
           /\ get xyz [(i * M + j)%nat; 1%nat]
              = linspace_point start_coordinate end_coordinate N i
           /\ get xyz [(i * M + j)%nat; 2%nat] = get z_grid [i; j].
Proof. intros. now apply grid_to_xyz_ok. Qed.

Lemma grid_to_xyz_points_witness :
  exists xyz,
    grid_to_xyz (mk_nd [2; 3]%nat (fun idx => INR (nth 1 idx 0%nat))) (-6) 6
    = Ok xyz
    /\ shape xyz = [(2 * 3)%nat; 3%nat]
    /\ forall i j, (i < 2)%nat -> (j < 3)%nat ->
         get xyz [(i * 3 + j)%nat; 0%nat] = linspace_point (-6) 6 3 j
         /\ get xyz [(i * 3 + j)%nat; 1%nat] = linspace_point (-6) 6 2 i
         /\ get xyz [(i * 3 + j)%nat; 2%nat]
            = get (mk_nd [2; 3]%nat (fun idx => INR (nth 1 idx 0%nat)))
                [i; j].
Proof.
  apply (@grid_to_xyz_points
           (mk_nd [2; 3]%nat (fun idx => INR (nth 1 idx 0%nat))) (-6) 6 2 3).
  reflexivity.
Defined.

(** X17.  The points of [grid_to_xyz] cover the square from
    [start_coordinate] to [end_coordinate]: with
    [start_coordinate <= end_coordinate] the [x] and the [y] of every
    point are between the two, and on a grid of two rows and two
    columns or more the first point is at
    [(start_coordinate, start_coordinate)] and the last at
    [(end_coordinate, end_coordinate)]. *)
Theorem grid_to_xyz_extent :
  forall (z_grid : ndarray) (start_coordinate end_coordinate : R)
         (N M : nat),
    shape z_grid = [N; M] ->
    start_coordinate <= end_coordinate ->
    exists xyz,
      grid_to_xyz z_grid start_coordinate end_coordinate = Ok xyz
      /\ (forall k c, (k < N * M)%nat -> (c < 2)%nat ->
            start_coordinate <= get xyz [k; c] <= end_coordinate)
      /\ ((2 <= N)%nat -> (2 <= M)%nat ->
          get xyz [0%nat; 0%nat] = start_coordinate
          /\ get xyz [0%nat; 1%nat] = start_coordinate
          /\ get xyz [(N * M - 1)%nat; 0%nat] = end_coordinate
          /\ get xyz [(N * M - 1)%nat; 1%nat] = end_coordinate).
Proof.
  intros z_grid a b N M Hz Hab.
  destruct (@grid_to_xyz_ok z_grid a b N M Hz) as (xyz & E & Hs & Hg).
  exists xyz. split; [exact E|]. split.
  - intros k c Hk Hc.
    assert (HM : (0 < M)%nat) by nia.
    assert (Hi : (k / M < N)%nat) by (apply Nat.Div0.div_lt_upper_bound; lia).
    assert (Hj : (k mod M < M)%nat) by (apply Nat.mod_upper_bound; lia).
    destruct (Hg (k / M)%nat (k mod M)%nat Hi Hj) as (Hx & Hy & _).
    replace (k / M * M + k mod M)%nat with k in Hx, Hy
      by (rewrite (Nat.div_mod_eq k M) at 1; lia).
    destruct c as [|[|c]]; [rewrite Hx|rewrite Hy|lia];
      now apply linspace_point_between.
  - intros HN HM.
    destruct (Hg 0%nat 0%nat ltac:(lia) ltac:(lia)) as (Hx0 & Hy0 & _).
    destruct (Hg (N - 1)%nat (M - 1)%nat ltac:(lia) ltac:(lia))
      as (Hx1 & Hy1 & _).
    replace ((N - 1) * M + (M - 1))%nat with (N * M - 1)%nat in Hx1, Hy1
      by nia.
    cbn [Nat.mul Nat.add] in Hx0, Hy0.
    rewrite Hx0, Hy0, Hx1, Hy1, !linspace_point_first.
    rewrite !linspace_point_last by assumption. repeat split.
Qed.

Lemma grid_to_xyz_extent_witness :
  -6 <= 6
  /\ exists xyz,
       grid_to_xyz (mk_nd [2; 3]%nat (fun _ => 0)) (-6) 6 = Ok xyz
       /\ (forall k c, (k < 2 * 3)%nat -> (c < 2)%nat ->
             -6 <= get xyz [k; c] <= 6)
       /\ ((2 <= 2)%nat -> (2 <= 3)%nat ->
           get xyz [0%nat; 0%nat] = -6
           /\ get xyz [0%nat; 1%nat] = -6
           /\ get xyz [(2 * 3 - 1)%nat; 0%nat] = 6
           /\ get xyz [(2 * 3 - 1)%nat; 1%nat] = 6).
Proof.
  split; [lra|].
  apply (@grid_to_xyz_extent (mk_nd [2; 3]%nat (fun _ => 0)) (-6) 6 2 3);
    [reflexivity|lra].
Defined.



(** ** The smoothness of the interpolant and the sharpness of the range *)

(** X19.  The default interpolant has the derivative
    [30 t^2 (1 - t)^2] at every [t]: it is flat at 0 and at 1, the two
    ends of a cell, so that the blend weights of neighbouring cells
    join with a continuous slope. *)
Theorem interpolant_flat_at_cell_ends :
  forall t : R,
    derivable_pt_lim interpolant t (30 * (t * t) * ((1 - t) * (1 - t)))
    /\ derivable_pt_lim interpolant 0 0
    /\ derivable_pt_lim interpolant 1 0.
Proof.
  intros t. split; [apply interpolant_derivative|]. split.
  - replace 0 with (30 * (0 * 0) * ((1 - 0) * (1 - 0))) at 2 by ring.
    apply interpolant_derivative.
  - replace 0 with (30 * (1 * 1) * ((1 - 1) * (1 - 1))) by ring.
    apply interpolant_derivative.
Qed.

(** X20.  The range [[-1, 1]] of the 2D evaluator is sharp: there are
    draws for which a sample is exactly 1.  On [shape = (2, 2)] and
    [res = (1, 1)] the sample [(1, 1)] is at the centre of the one
    cell, and with the draws [1/8, 7/8, 3/8, 5/8] the four corner
    gradients point at it. *)
Theorem perlin_2d_range_is_sharp :
  exists (st : rng) (F : ndarray) (st' : rng),
    uniform_draws st
    /\ generate_perlin_noise_2d [2; 2]%Z [1; 1]%Z [false; false]
         interpolant st = (Ok F, st')
    /\ get F [1%nat; 1%nat] = 1.
Proof.
  set (st := mk_rng (fun k => nth k [1 / 8; 7 / 8; 3 / 8; 5 / 8] (1 / 8)) 0).
  destruct (@perlin_2d_ok 2 2 1 1 [] [] false false [] interpolant st)
    as (F & EF & _ & HgF); try lia;
    try (exists 2%Z; reflexivity).
  exists st, F, (advance st (Z.to_nat (1 + 1) * Z.to_nat (1 + 1))).
  split.
  { intros k. unfold st. cbn [draws].
    destruct k as [|[|[|[|k]]]]; cbn [nth]; try lra.
    destruct k; cbn [nth]; lra. }
  split; [exact EF|].
  rewrite HgF by (simpl; lia).
  unfold perlin_value_2d, perlin_sample_2d.
  rewrite !local_coord_closed by (try lia; exists 2%Z; reflexivity).
  change (Z.to_nat (2 / 1)) with 2%nat.
  change (1 mod 2)%nat with 1%nat. change (1 / 2)%nat with 0%nat.
  change (Z.to_nat (1 + 1)) with 2%nat.
  replace (INR 1 / INR 2) with (1 / 2) by (simpl; field).
  assert (Hi : interpolant (1 / 2) = 1 / 2) by (unfold interpolant; field).
  unfold bilinear. rewrite Hi.
  unfold lattice_gradient_2d, seam, unit_2d, angle_at, st, lerp.
  cbn [andb Nat.add Nat.mul nth draws pos INR].
  replace (2 * PI * (1 / 8)) with (PI / 4) by field.
  replace (2 * PI * (7 / 8)) with (3 * (PI / 4) + PI) by field.
  replace (2 * PI * (3 / 8)) with (3 * (PI / 4)) by field.
  replace (2 * PI * (5 / 8)) with (5 * (PI / 4)) by field.
  rewrite neg_cos, neg_sin, cos_PI4, sin_PI4, cos_3PI4, sin_3PI4,
    cos_5PI4, sin_5PI4.
  pose proof (sqrt_sqrt 2 ltac:(lra)) as H2.
  pose proof (sqrt_lt_R0 2 ltac:(lra)) as Hp.
  replace (-1 / sqrt 2) with (- (sqrt 2 / 2)) by (field_simplify_eq; lra).
  replace (1 / sqrt 2) with (sqrt 2 / 2) by (field_simplify_eq; lra).
  nra.
Qed.

(** ** The samples that tileable changes *)





(** ** The 3D evaluator on every positive shape and res *)


Lemma bshape_rev_mismatch (A B : list nat) :
  Exists (fun p => fst p <> snd p /\ fst p <> 1%nat /\ snd p <> 1%nat)
    (combine A B) ->
  bshape_rev A B = None.
Proof.
  revert B. induction A as [|a A IH]; intros [|b B] H;
    try (now inversion H).
  cbn [combine] in H. cbn [bshape_rev].
  apply Exists_cons in H as [(H0 & H1 & H2)|H].
  - cbn [fst snd] in H0, H1, H2.
    destruct (bshape_rev A B); [|reflexivity].
    destruct (Nat.eqb_spec a b), (Nat.eqb_spec a 1), (Nat.eqb_spec b 1);
      try reflexivity; exfalso; lia.
  - now rewrite IH.
Qed.



Lemma broadcast_mismatch_3d (a0 a1 a2 b0 b1 b2 : nat) :
  (a0 <> b0 /\ a0 <> 1%nat /\ b0 <> 1%nat)
  \/ (a1 <> b1 /\ a1 <> 1%nat /\ b1 <> 1%nat)
  \/ (a2 <> b2 /\ a2 <> 1%nat /\ b2 <> 1%nat) ->
  broadcast_shapes [a0; a1; a2; 3%nat] [b0; b1; b2; 3%nat] = None.
Proof.
  intros H. unfold broadcast_shapes. cbn [rev app].
  rewrite bshape_rev_mismatch; [reflexivity|]. cbn [combine].
  destruct H as [H|[H|H]].
  - do 3 apply Exists_cons_tl. now apply Exists_cons_hd.
  - do 2 apply Exists_cons_tl. now apply Exists_cons_hd.
  - apply Exists_cons_tl. now apply Exists_cons_hd.
Qed.





Lemma blend_3d_mismatch (R0 R1 R2 D0 D1 D2 S0 S1 S2 : nat)
    (grid L : ndarray) (interp : R -> R) :
  shape grid = [S0; S1; S2; 3%nat] ->
  shape L = [S R0; S R1; S R2; 3%nat] ->
  (S0 <> (R0 * D0)%nat /\ S0 <> 1%nat /\ (R0 * D0)%nat <> 1%nat)
  \/ (S1 <> (R1 * D1)%nat /\ S1 <> 1%nat /\ (R1 * D1)%nat <> 1%nat)
  \/ (S2 <> (R2 * D2)%nat /\ S2 <> 1%nat /\ (R2 * D2)%nat <> 1%nat) ->
  blend_3d (Z.of_nat D0) (Z.of_nat D1) (Z.of_nat D2) grid L interp
  = Raise ValueError.
Proof.
  intros Hgrid HL Hbad. unfold blend_3d.
  step (@repeat_yields (Z.of_nat D0) 0 L _ HL ltac:(simpl; lia) ltac:(lia))
    as rep0.
  cbn [set_nth nth] in Hsrep0. rewrite Nat2Z.id in Hsrep0.
  step (@repeat_yields (Z.of_nat D1) 1 rep0 _ Hsrep0 ltac:(simpl; lia)
          ltac:(lia)) as rep1.
  cbn [set_nth nth] in Hsrep1. rewrite Nat2Z.id in Hsrep1.
  step (@repeat_yields (Z.of_nat D2) 2 rep1 _ Hsrep1 ltac:(simpl; lia)
          ltac:(lia)) as rep.
  cbn [set_nth nth] in Hsrep. rewrite Nat2Z.id in Hsrep.
  step (@slice_yields
          [(None, Some (- Z.of_nat D0)%Z); (None, Some (- Z.of_nat D1)%Z);
           (None, Some (- Z.of_nat D2)%Z)]
          rep _ Hsrep ltac:(simpl; lia)) as g000.
  cbn [Np.slice_shape] in Hsg000.
  rewrite ?slice_bounds_lo_repeated in Hsg000.
  rewrite ?slice_bounds_hi_repeated in Hsg000.
  cbn [snd] in Hsg000.
  step (@slice_yields
          [(Some (Z.of_nat D0), None); (None, Some (- Z.of_nat D1)%Z);
           (None, Some (- Z.of_nat D2)%Z)]
          rep _ Hsrep ltac:(simpl; lia)) as g100.
  cbn [Np.slice_shape] in Hsg100.
  rewrite ?slice_bounds_lo_repeated in Hsg100.
  rewrite ?slice_bounds_hi_repeated in Hsg100.
  cbn [snd] in Hsg100.
  step (@slice_yields
          [(None, Some (- Z.of_nat D0)%Z); (Some (Z.of_nat D1), None);
           (None, Some (- Z.of_nat D2)%Z)]
          rep _ Hsrep ltac:(simpl; lia)) as g010.
  cbn [Np.slice_shape] in Hsg010.
  rewrite ?slice_bounds_lo_repeated in Hsg010.
  rewrite ?slice_bounds_hi_repeated in Hsg010.
  cbn [snd] in Hsg010.
  step (@slice_yields
          [(Some (Z.of_nat D0), None); (Some (Z.of_nat D1), None);
           (None, Some (- Z.of_nat D2)%Z)]
          rep _ Hsrep ltac:(simpl; lia)) as g110.
  cbn [Np.slice_shape] in Hsg110.
  rewrite ?slice_bounds_lo_repeated in Hsg110.
  rewrite ?slice_bounds_hi_repeated in Hsg110.
  cbn [snd] in Hsg110.
  step (@slice_yields
          [(None, Some (- Z.of_nat D0)%Z); (None, Some (- Z.of_nat D1)%Z);
           (Some (Z.of_nat D2), None)]
          rep _ Hsrep ltac:(simpl; lia)) as g001.
  cbn [Np.slice_shape] in Hsg001.
  rewrite ?slice_bounds_lo_repeated in Hsg001.
  rewrite ?slice_bounds_hi_repeated in Hsg001.
  cbn [snd] in Hsg001.
  step (@slice_yields
          [(Some (Z.of_nat D0), None); (None, Some (- Z.of_nat D1)%Z);
           (Some (Z.of_nat D2), None)]
          rep _ Hsrep ltac:(simpl; lia)) as g101.
  cbn [Np.slice_shape] in Hsg101.
  rewrite ?slice_bounds_lo_repeated in Hsg101.
  rewrite ?slice_bounds_hi_repeated in Hsg101.
  cbn [snd] in Hsg101.
  step (@slice_yields
          [(None, Some (- Z.of_nat D0)%Z); (Some (Z.of_nat D1), None);
           (Some (Z.of_nat D2), None)]
          rep _ Hsrep ltac:(simpl; lia)) as g011.
  cbn [Np.slice_shape] in Hsg011.
  rewrite ?slice_bounds_lo_repeated in Hsg011.
  rewrite ?slice_bounds_hi_repeated in Hsg011.
  cbn [snd] in Hsg011.
  step (@slice_yields
          [(Some (Z.of_nat D0), None); (Some (Z.of_nat D1), None);
           (Some (Z.of_nat D2), None)]
          rep _ Hsrep ltac:(simpl; lia)) as g111.
  cbn [Np.slice_shape] in Hsg111.
  rewrite ?slice_bounds_lo_repeated in Hsg111.
  rewrite ?slice_bounds_hi_repeated in Hsg111.
  cbn [snd] in Hsg111.
  step (@getitem_int_yields 3 0 grid _ Hgrid ltac:(simpl; lia)
          ltac:(simpl; lia)) as x.
  step (@getitem_int_yields 3 1 grid _ Hgrid ltac:(simpl; lia)
          ltac:(simpl; lia)) as y.
  step (@getitem_int_yields 3 2 grid _ Hgrid ltac:(simpl; lia)
          ltac:(simpl; lia)) as z.
  cbn [remove_nth] in Hsx, Hsy, Hsz.
  apply rbind_raise. unfold ramp_3d.
  step (@stack_yields 3 x [y; z] [S0; S1; S2]
          ltac:(repeat constructor; assumption) ltac:(simpl; lia)) as v.
  cbn [insert_nth length] in Hsv.
  apply rbind_raise. apply binop_mismatch.
  rewrite Hsv, Hsg000. now apply broadcast_mismatch_3d.
Qed.



Lemma axis_mismatch (s r : Z) :
  (0 < s)%Z -> (0 < r)%Z -> ~ (r | s)%Z -> s <> 1%Z ->
  Z.to_nat s <> (Z.to_nat r * Z.to_nat (s / r))%nat
  /\ Z.to_nat s <> 1%nat
  /\ (Z.to_nat r * Z.to_nat (s / r))%nat <> 1%nat.
Proof.
  intros Hs Hr Hnd Hn1.
  assert (Hq : (0 <= s / r)%Z) by (apply Z.div_pos; lia).
  rewrite <- Z2Nat.inj_mul by lia.
  assert (Hne : (r * (s / r) <> s)%Z).
  { intros Heq. apply Hnd. exists (s / r)%Z. lia. }
  split; [|split].
  - intros Heq. apply Z2Nat.inj in Heq; nia.
  - lia.
  - intros Heq.
    assert (H1 : (r * (s / r) = 1)%Z) by nia.
    assert (r = 1)%Z
      by (apply (Z.eq_mul_1_nonneg r (s / r)); [lia | exact H1]).
    subst r. apply Hnd. exists s. lia.
Qed.



Lemma not_multiple_raises_3d_after_draws (s0 s1 s2 r0 r1 r2 : Z)
    (t0 t1 t2 : bool) (interp : R -> R) (st : rng) :
  (0 < s0)%Z -> (0 < s1)%Z -> (0 < s2)%Z ->
  (0 < r0)%Z -> (0 < r1)%Z -> (0 < r2)%Z ->
  (~ (r0 | s0)%Z /\ s0 <> 1%Z) \/ (~ (r1 | s1)%Z /\ s1 <> 1%Z)
  \/ (~ (r2 | s2)%Z /\ s2 <> 1%Z) ->
  generate_perlin_noise_3d [s0; s1; s2] [r0; r1; r2] [t0; t1; t2] interp st
  = (Raise ValueError,
     advance st (2 * (Z.to_nat (r0 + 1) * Z.to_nat (r1 + 1)
                      * Z.to_nat (r2 + 1)))).
Proof.
  intros Hs0 Hs1 Hs2 Hr0 Hr1 Hr2 Hbad.
  destruct (@perlin_3d_blend s0 s1 s2 r0 r1 r2 t0 t1 t2 interp st)
    as (grid & L & Hsg & HsL & E); try assumption.
  rewrite E. f_equal.
  assert (Hq0 : (0 <= s0 / r0)%Z) by (apply Z.div_pos; lia).
  assert (Hq1 : (0 <= s1 / r1)%Z) by (apply Z.div_pos; lia).
  assert (Hq2 : (0 <= s2 / r2)%Z) by (apply Z.div_pos; lia).
  rewrite <- (Z2Nat.id (s0 / r0)), <- (Z2Nat.id (s1 / r1)),
    <- (Z2Nat.id (s2 / r2)) by assumption.
  replace (Z.to_nat (r0 + 1)) with (S (Z.to_nat r0)) in HsL by lia.
  replace (Z.to_nat (r1 + 1)) with (S (Z.to_nat r1)) in HsL by lia.
  replace (Z.to_nat (r2 + 1)) with (S (Z.to_nat r2)) in HsL by lia.
  apply blend_3d_mismatch
    with (R0 := Z.to_nat r0) (R1 := Z.to_nat r1) (R2 := Z.to_nat r2)
         (S0 := Z.to_nat s0) (S1 := Z.to_nat s1) (S2 := Z.to_nat s2);
    try assumption.
  destruct Hbad as [[Hnd Hn1]|[[Hnd Hn1]|[Hnd Hn1]]];
    [left | right; left | right; right]; now apply axis_mismatch.
Qed.





(** ** The input errors in 3D *)



(** X23.  On a positive shape and res, an axis of two samples or more
    that is not a multiple of its res makes [generate_perlin_noise_3d]
    raise [ValueError] after the two angles of every lattice corner
    are drawn. *)
Theorem perlin_3d_mismatch_after_drawing :
  forall (s0 s1 s2 r0 r1 r2 : Z) (t0 t1 t2 : bool) (interp : R -> R)
         (st : rng),
    (0 < s0)%Z -> (0 < s1)%Z -> (0 < s2)%Z ->
    (0 < r0)%Z -> (0 < r1)%Z -> (0 < r2)%Z ->
    (~ (r0 | s0)%Z /\ s0 <> 1%Z) \/ (~ (r1 | s1)%Z /\ s1 <> 1%Z)
    \/ (~ (r2 | s2)%Z /\ s2 <> 1%Z) ->
    generate_perlin_noise_3d [s0; s1; s2] [r0; r1; r2] [t0; t1; t2] interp st
    = (Raise ValueError,
       advance st (2 * (Z.to_nat (r0 + 1) * Z.to_nat (r1 + 1)
                        * Z.to_nat (r2 + 1)))).
Proof. intros. now apply not_multiple_raises_3d_after_draws. Qed.

Lemma perlin_3d_mismatch_after_drawing_witness :
  generate_perlin_noise_3d [4; 5; 2]%Z [2; 2; 1]%Z [false; true; false]
    interpolant (constant_rng (1 / 4))
  = (Raise ValueError, advance (constant_rng (1 / 4)) 36).
Proof.
  apply (@perlin_3d_mismatch_after_drawing 4 5 2 2 2 1 false true false
           interpolant (constant_rng (1 / 4))); try lia.
  right. left. split; [|lia]. intros [q Hq]. lia.
Defined.


